(** * rootstock-attest: verification engine, query builder, schema codec, logger

    A shallow embedding of the decision logic of the attestation CLI:
    - [Js]      the JavaScript built-ins the code relies on (template-literal
                number rendering, [Array.prototype.join], [String.prototype]
                helpers, [Date.prototype.toISOString]);
    - [Regex]   the fragment of JavaScript regular expressions used by the
                logger, with greedy backtracking and global replacement;
    - [Logger]  [Logger.redactSensitive] (utils/logger.ts);
    - [Query]   [QueryService.buildGraphQLQuery], [buildSchemaQuery] and
                [getAttestationsByUID] (core/query.ts);
    - [Codec]   [BlockchainAdapter.inferType] (core/blockchain.ts) and the
                address test of [ethers] that it calls;
    - [Crypto]  [isValidPrivateKey], [isValidAddress] and [sanitizeForLog]
                (utils/crypto.ts);
    - [Verify]  [verifyAttestation] (commands/verify.ts).

    JavaScript strings are modelled as [string] (one [ascii] per code unit,
    so messages are Latin-1), JavaScript numbers as [Z] (integral values in
    the safe range). *)

From Stdlib Require Import ZArith List String Ascii Bool Lia DecimalString.
Import ListNotations.

Local Open Scope string_scope.
Local Open Scope Z_scope.

(* ------------------------------------------------------------------ *)
(** ** JavaScript built-ins                                             *)
(* ------------------------------------------------------------------ *)

Module Js.

(** [`${n}`] for an integral number. *)
Definition numberToString (n : Z) : string :=
  NilZero.string_of_int (Z.to_int n).

(** The double quote character. *)
Definition quote : string := String (ascii_of_nat 34) EmptyString.

(** [xs.join(sep)]. *)
Fixpoint join (sep : string) (xs : list string) : string :=
  match xs with
  | [] => ""
  | [x] => x
  | x :: rest => x ++ sep ++ join sep rest
  end.


(** [s.includes(p)]. *)
Fixpoint includes (p s : string) : bool :=
  String.prefix p s ||
  match s with
  | EmptyString => false
  | String _ s' => includes p s'
  end.

Definition isUpper (c : ascii) : bool :=
  let n := nat_of_ascii c in (65 <=? n)%nat && (n <=? 90)%nat.

Definition lowerChar (c : ascii) : ascii :=
  if isUpper c then ascii_of_nat (nat_of_ascii c + 32) else c.

(** [s.toLowerCase()] on the ASCII letters. *)
Fixpoint toLowerCase (s : string) : string :=
  match s with
  | EmptyString => EmptyString
  | String c s' => String (lowerChar c) (toLowerCase s')
  end.

(** [s.slice(0, n)]. *)
Definition sliceTo (n : nat) (s : string) : string := String.substring 0 n s.

(** [s.slice(-n)]: the last [n] code units (the whole string when it is
    shorter). *)
Definition sliceLast (n : nat) (s : string) : string :=
  let len := String.length s in
  String.substring (len - n) (Nat.min n len) s.

(** A string is truthy when it is not empty. *)
Definition truthyString (s : string) : bool :=
  match s with EmptyString => false | _ => true end.

(** An (integral) number is truthy when it is not zero. *)
Definition truthyNumber (n : Z) : bool := negb (n =? 0).

(** *** Dates

    [new Date(ms).toISOString()]: the time value must lie within
    8.64e15 ms of the epoch, otherwise the Date is invalid and
    [toISOString] throws [RangeError: Invalid time value]. *)

Definition maxTimeValue : Z := 8640000000000000.

Definition validTimeValue (ms : Z) : bool :=
  (- maxTimeValue <=? ms) && (ms <=? maxTimeValue).

Definition msPerDay : Z := 86400000.

(** Year, month and day of the proleptic Gregorian calendar from the
    number of days since 1970-01-01. *)
Definition civilFromDays (days : Z) : Z * Z * Z :=
  let z := days + 719468 in
  let era := z / 146097 in
  let doe := z - era * 146097 in
  let yoe := (doe - doe / 1460 + doe / 36524 - doe / 146096) / 365 in
  let y := yoe + era * 400 in
  let doy := doe - (365 * yoe + yoe / 4 - yoe / 100) in
  let mp := (5 * doy + 2) / 153 in
  let d := doy - (153 * mp + 2) / 5 + 1 in
  let m := if mp <? 10 then mp + 3 else mp - 9 in
  (if m <=? 2 then y + 1 else y, m, d).

Fixpoint zeros (n : nat) : string :=
  match n with O => "" | S k => String "0" (zeros k) end.

(** Decimal rendering of a non-negative number, left-padded with zeros. *)
Definition pad (width : nat) (n : Z) : string :=
  let s := numberToString n in
  zeros (width - String.length s) ++ s.

(** Years 0..9999 use four digits, all others a sign and six digits. *)
Definition isoYear (y : Z) : string :=
  if (0 <=? y) && (y <=? 9999) then pad 4 y
  else if y <? 0 then "-" ++ pad 6 (- y)
  else "+" ++ pad 6 y.

Definition toISOString (ms : Z) : option string :=
  if validTimeValue ms then
    let days := ms / msPerDay in
    let rest := ms mod msPerDay in
    let '(y, m, d) := civilFromDays days in
    Some (isoYear y ++ "-" ++ pad 2 m ++ "-" ++ pad 2 d ++ "T" ++
          pad 2 (rest / 3600000) ++ ":" ++
          pad 2 ((rest / 60000) mod 60) ++ ":" ++
          pad 2 ((rest / 1000) mod 60) ++ "." ++
          pad 3 (rest mod 1000) ++ "Z")
  else None.

End Js.

(* ------------------------------------------------------------------ *)
(** ** QueryService (core/query.ts)                                     *)
(* ------------------------------------------------------------------ *)

Module Query.

(** [QueryOptions] (types.ts): every field is optional. *)
Record QueryOptions := mkQueryOptions {
  schema : option string;
  recipient : option string;
  attester : option string;
  limit : option Z;
  offset : option Z
}.

Record SchemaQueryOptions := mkSchemaQueryOptions {
  creator : option string;
  schemaLimit : option Z
}.

Definition noOptions : QueryOptions := mkQueryOptions None None None None None.

(** [if (options.f) conditions.push(`key: "${options.f}"`)]: the filter is
    pushed when the field is present and truthy. *)
Definition condition (key : string) (field : option string) : list string :=
  match field with
  | Some v => if Js.truthyString v then [key ++ ": " ++ Js.quote ++ v ++ Js.quote] else []
  | None => []
  end.

Definition conditions (options : QueryOptions) : list string :=
  condition "schemaId" (schema options) ++
  condition "recipient" (recipient options) ++
  condition "attester" (attester options).

Definition whereClause (conds : list string) : string :=
  match conds with
  | [] => ""
  | _ => "where: { " ++ Js.join ", " conds ++ " }"
  end.

(** [options.limit ? `first: ${options.limit}` : default], where [default]
    is ['first: 100'] or ['first: 50']. *)
Definition limitClause (default : string) (lim : option Z) : string :=
  match lim with
  | Some n => if Js.truthyNumber n then "first: " ++ Js.numberToString n
              else default
  | None => default
  end.

(** [options.offset ? `skip: ${options.offset}` : '']. *)
Definition offsetClause (off : option Z) : string :=
  match off with
  | Some n => if Js.truthyNumber n then "skip: " ++ Js.numberToString n else ""
  | None => ""
  end.

(** [[...].filter(Boolean).join(', ')]. *)
Definition joinClauses (clauses : list string) : string :=
  Js.join ", " (filter Js.truthyString clauses).

(** The clauses of the attestation query, before empty ones are dropped. *)
Definition attestationClauses (options : QueryOptions) : list string :=
  [whereClause (conditions options);
   limitClause "first: 100" (limit options);
   offsetClause (offset options)].

Definition nl : string := String (ascii_of_nat 10) EmptyString.

(** The selection set shared by the two attestation queries, at the
    indentation [ind] of the enclosing field. *)
Definition attestationFields (ind : string) : string :=
  ind ++ "  id" ++ nl ++
  ind ++ "  uid" ++ nl ++
  ind ++ "  schema {" ++ nl ++
  ind ++ "    id" ++ nl ++
  ind ++ "    schema" ++ nl ++
  ind ++ "  }" ++ nl ++
  ind ++ "  recipient" ++ nl ++
  ind ++ "  attester" ++ nl ++
  ind ++ "  time" ++ nl ++
  ind ++ "  timeCreated" ++ nl ++
  ind ++ "  revocationTime" ++ nl ++
  ind ++ "  expirationTime" ++ nl ++
  ind ++ "  revocable" ++ nl ++
  ind ++ "  data" ++ nl ++
  ind ++ "  decodedDataJson" ++ nl.

(** The template literal of [buildGraphQLQuery] around its arguments. *)
Definition attestationQuery (args : string) : string :=
  nl ++
  "      query {" ++ nl ++
  "        attestations(" ++ args ++ ") {" ++ nl ++
  attestationFields "        " ++
  "        }" ++ nl ++
  "      }" ++ nl ++
  "    ".

Definition buildGraphQLQuery (options : QueryOptions) : string :=
  attestationQuery (joinClauses (attestationClauses options)).

Definition schemaClauses (options : SchemaQueryOptions) : list string :=
  [whereClause (condition "creator" (creator options));
   limitClause "first: 50" (schemaLimit options)].

(** The template literal of [buildSchemaQuery] around its arguments. *)
Definition schemaQuery (args : string) : string :=
  nl ++
  "      query {" ++ nl ++
  "        schemas(" ++ args ++ ") {" ++ nl ++
  "          id" ++ nl ++
  "          schema" ++ nl ++
  "          creator" ++ nl ++
  "          resolver" ++ nl ++
  "          revocable" ++ nl ++
  "          time" ++ nl ++
  "        }" ++ nl ++
  "      }" ++ nl ++
  "    ".

Definition buildSchemaQuery (options : SchemaQueryOptions) : string :=
  schemaQuery (joinClauses (schemaClauses options)).

(** The query text of [getAttestationsByUID]. *)
Definition uidQuery (uids : list string) : string :=
  nl ++
  "        query {" ++ nl ++
  "          attestations(where: { uid_in: [" ++
     Js.join ", " (map (fun uid => Js.quote ++ uid ++ Js.quote) uids) ++ "] }) {" ++ nl ++
  attestationFields "          " ++
  "          }" ++ nl ++
  "        }" ++ nl ++
  "      ".

End Query.

(* ------------------------------------------------------------------ *)
(** ** verifyAttestation (commands/verify.ts)                           *)
(* ------------------------------------------------------------------ *)

Module Verify.

(** *** Data *)

Record SchemaRef := mkSchemaRef {
  schemaId : string;
  schemaText : string
}.

(** An attestation as the indexer reports it (the selection set of the
    query). *)
Record Attestation := mkAttestation {
  attUid : string;
  attSchema : SchemaRef;
  attRecipient : string;
  attAttester : string;
  timeCreated : Z;
  revocationTime : Z;
  expirationTime : Z;
  revocable : bool
}.

(** What [eas.getAttestation] resolves to: the code reads only [uid]. *)
Record OnChainAttestation := mkOnChain {
  onChainUid : string
}.

(** What [schemaRegistry.getSchema] resolves to. *)
Record SchemaRecord := mkSchemaRecord {
  recSchema : string;
  recResolver : string;
  recRevocable : bool
}.

(** [SchemaData] (types.ts), built by [BlockchainAdapter.getSchema]. *)
Record SchemaData := mkSchemaData {
  sdUid : string;
  sdSchema : string;
  sdResolver : string;
  sdRevocable : bool
}.

Record VerificationResult := mkResult {
  uid : string;
  isValid : bool;
  exists_ : bool;
  isRevoked : bool;
  isExpired : bool;
  attestation : option Attestation;
  issues : list string
}.

Record Checks := mkChecks {
  checkExpiration : bool;
  checkRevocation : bool
}.

(** *** The outside world

    A promise either rejects with an error (its message) or resolves. *)
Inductive Outcome (A : Type) : Type :=
| Rejects (message : string)
| Resolves (value : A).
Arguments Rejects {A} message.
Arguments Resolves {A} value.

(** The parsed body of an indexer response: [{ data?, errors? }], as far
    as the code reads it.  [bodyErrors] holds [JSON.stringify(result.errors)]
    when [result.errors] is truthy (an array or an object); a missing,
    [null] or otherwise falsy field is [None].  [bodyData] holds
    [result.data?.attestations] when there is such a list. *)
Record IndexerBody := mkBody {
  bodyData : option (list Attestation);
  bodyErrors : option string
}.

Record Response := mkResponse {
  ok : bool;
  statusText : string;
  body : Outcome IndexerBody
}.

Record World := mkWorld {
  fetch : string -> Outcome Response;
  easGetAttestation : string -> Outcome (option OnChainAttestation);
  registryGetSchema : string -> Outcome SchemaRecord;
  dateNow : Z
}.

(** What the call does to the outside world, in order. *)
Inductive Event : Type :=
| IndexerFetch (query : string)
| RegistryGetAttestation (uid : string)
| RegistryGetSchema (uid : string)
| LogWarn (message : string)
| LogError (message : string) (error : string).

Definition isRegistryCall (e : Event) : bool :=
  match e with
  | RegistryGetAttestation _ | RegistryGetSchema _ => true
  | _ => false
  end.

(** *** The monad: the mutable [result], the trace of calls, exceptions *)

Record State := mkState {
  result : VerificationResult;
  trace : list Event
}.

Definition M (A : Type) : Type := State -> (string + A) * State.

Definition ret {A} (a : A) : M A := fun s => (inr a, s).

Definition bind {A B} (m : M A) (k : A -> M B) : M B :=
  fun s =>
    match m s with
    | (inl e, s') => (inl e, s')
    | (inr a, s') => k a s'
    end.

Definition throw {A} (e : string) : M A := fun s => (inl e, s).

(** [try { body } catch (error) { handler }]. *)
Definition tryCatch {A} (body : M A) (handler : string -> M A) : M A :=
  fun s =>
    match body s with
    | (inl e, s') => handler e s'
    | (inr a, s') => (inr a, s')
    end.

Notation "x <- m ;; k" := (bind m (fun x => k))
  (at level 61, m at next level, right associativity).
Notation "m ;; k" := (bind m (fun _ => k))
  (at level 61, right associativity).

Definition emit (e : Event) : M unit :=
  fun s => (inr tt, mkState (result s) (trace s ++ [e])).

Definition await {A} (e : Event) (o : Outcome A) : M A :=
  emit e ;;
  match o with
  | Rejects msg => throw msg
  | Resolves a => ret a
  end.

Definition lift {A} (r : string + A) : M A :=
  match r with
  | inl e => throw e
  | inr a => ret a
  end.

Definition update (f : VerificationResult -> VerificationResult) : M unit :=
  fun s => (inr tt, mkState (f (result s)) (trace s)).

Definition getResult : M VerificationResult := fun s => (inr (result s), s).

Definition when (b : bool) (m : M unit) : M unit := if b then m else ret tt.

Definition setValid (b : bool) (r : VerificationResult) : VerificationResult :=
  mkResult (uid r) b (exists_ r) (isRevoked r) (isExpired r) (attestation r) (issues r).
Definition setExists (b : bool) (r : VerificationResult) : VerificationResult :=
  mkResult (uid r) (isValid r) b (isRevoked r) (isExpired r) (attestation r) (issues r).
Definition setRevoked (b : bool) (r : VerificationResult) : VerificationResult :=
  mkResult (uid r) (isValid r) (exists_ r) b (isExpired r) (attestation r) (issues r).
Definition setExpired (b : bool) (r : VerificationResult) : VerificationResult :=
  mkResult (uid r) (isValid r) (exists_ r) (isRevoked r) b (attestation r) (issues r).
Definition setAttestation (a : Attestation) (r : VerificationResult) : VerificationResult :=
  mkResult (uid r) (isValid r) (exists_ r) (isRevoked r) (isExpired r) (Some a) (issues r).
Definition pushIssue (i : string) (r : VerificationResult) : VerificationResult :=
  mkResult (uid r) (isValid r) (exists_ r) (isRevoked r) (isExpired r) (attestation r)
           (issues r ++ [i]).

(** [new Date(seconds * 1000).toISOString()]. *)
Definition isoOfSeconds (seconds : Z) : M string :=
  match Js.toISOString (seconds * 1000) with
  | Some s => ret s
  | None => throw "Invalid time value"
  end.

(** *** Collaborators *)

(** [QueryService.getAttestationsByUID] once the response has arrived:
    the error it throws or the attestations it returns. *)
Definition readResponse (response : Response) : string + list Attestation :=
  if negb (ok response) then
    inl ("GraphQL request failed: " ++ statusText response)
  else
    match body response with
    | Rejects msg => inl msg
    | Resolves b =>
        match bodyErrors b with
        | Some errors => inl ("GraphQL errors: " ++ errors)
        | None =>
            match bodyData b with
            | Some attestations => inr attestations
            | None => inr []
            end
        end
    end.

Definition getAttestationsByUID (w : World) (uids : list string)
  : M (list Attestation) :=
  tryCatch
    (let query := Query.uidQuery uids in
     response <- await (IndexerFetch query) (fetch w query) ;;
     lift (readResponse response))
    (fun error =>
       emit (LogError "Failed to get attestations by UID" error) ;;
       throw error).

(** What the indexer client answers for [uids] in the world [w]. *)
Definition indexerReply (w : World) (uids : list string)
  : string + list Attestation :=
  match fetch w (Query.uidQuery uids) with
  | Rejects msg => inl msg
  | Resolves response => readResponse response
  end.

(** [BlockchainAdapter.getAttestation]. *)
Definition getAttestation (w : World) (uid : string)
  : M (option OnChainAttestation) :=
  tryCatch
    (await (RegistryGetAttestation uid) (easGetAttestation w uid))
    (fun error =>
       emit (LogError ("Failed to get attestation " ++ uid) error) ;;
       throw error).

(** [BlockchainAdapter.getSchema]. *)
Definition getSchema (w : World) (uid : string) : M SchemaData :=
  tryCatch
    (schema <- await (RegistryGetSchema uid) (registryGetSchema w uid) ;;
     ret (mkSchemaData uid (recSchema schema) (recResolver schema)
                       (recRevocable schema)))
    (fun error =>
       emit (LogError ("Failed to get schema " ++ uid) error) ;;
       throw error).

(** *** The checks of [verifyAttestation], in source order *)

(** [{ uid, isValid: true, exists: false, isRevoked: false,
      isExpired: false, issues: [] }]. *)
Definition initialResult (uid : string) : VerificationResult :=
  mkResult uid true false false false None [].

Definition notFound : M unit :=
  update (setExists false) ;;
  update (setValid false) ;;
  update (pushIssue "Attestation does not exist").

Definition revocationCheck (checks : Checks) (a : Attestation) : M unit :=
  when (checkRevocation checks && (0 <? revocationTime a))
    (update (setRevoked true) ;;
     update (setValid false) ;;
     date <- isoOfSeconds (revocationTime a) ;;
     update (pushIssue ("Attestation was revoked on " ++ date))).

(** [Math.floor(Date.now() / 1000)]. *)
Definition nowSeconds (w : World) : Z := dateNow w / 1000.

Definition expirationCheck (w : World) (checks : Checks) (a : Attestation)
  : M unit :=
  when (checkExpiration checks && (0 <? expirationTime a))
    (let now := nowSeconds w in
     when (expirationTime a <? now)
       (update (setExpired true) ;;
        update (setValid false) ;;
        date <- isoOfSeconds (expirationTime a) ;;
        update (pushIssue ("Attestation expired on " ++ date)))).

(** [!onChainAttestation || onChainAttestation.uid !== uid]. *)
Definition onChainMismatch (uid : string) (o : option OnChainAttestation) : bool :=
  match o with
  | None => true
  | Some a => negb (String.eqb (onChainUid a) uid)
  end.

Definition crossSourceCheck (w : World) (uid : string) : M unit :=
  tryCatch
    (onChainAttestation <- getAttestation w uid ;;
     when (onChainMismatch uid onChainAttestation)
       (update (setValid false) ;;
        update (pushIssue "Attestation data mismatch between on-chain and indexer")))
    (fun error =>
       emit (LogWarn ("Could not verify on-chain data: " ++ error)) ;;
       update (pushIssue "Warning: Could not verify on-chain data")).

Definition schemaCheck (w : World) (a : Attestation) : M unit :=
  tryCatch
    (schema <- getSchema w (schemaId (attSchema a)) ;;
     when (negb (Js.truthyString (sdSchema schema)))
       (update (setValid false) ;;
        update (pushIssue "Referenced schema does not exist or is invalid")))
    (fun _ =>
       update (setValid false) ;;
       update (pushIssue "Failed to validate schema")).

(** [if (result.issues.length === 0) result.issues.push('All checks passed')]. *)
Definition allChecksPassed : M unit :=
  r <- getResult ;;
  when (Nat.eqb (List.length (issues r)) 0)
    (update (pushIssue "All checks passed")).

(** The checks that follow the existence check. *)
Definition runChecks (w : World) (uid : string) (checks : Checks)
           (a : Attestation) : M unit :=
  revocationCheck checks a ;;
  expirationCheck w checks a ;;
  crossSourceCheck w uid ;;
  schemaCheck w a ;;
  allChecksPassed.

(** The body of the outer [try].  The early [return result] of the
    not-found branch leaves the [try] with nothing after it but the final
    [return result], so it is the end of that branch here. *)
Definition verifyBody (w : World) (uid : string) (checks : Checks) : M unit :=
  attestations <- getAttestationsByUID w [uid] ;;
  match attestations with
  | [] => notFound
  | a :: _ =>
      update (setExists true) ;;
      update (setAttestation a) ;;
      runChecks w uid checks a
  end.

Definition verifyAttestation (w : World) (uid : string) (checks : Checks)
  : M VerificationResult :=
  tryCatch
    (verifyBody w uid checks)
    (fun error =>
       update (setValid false) ;;
       update (pushIssue ("Verification failed: " ++ error))) ;;
  getResult.

(** One call: a fresh result object and an empty trace. *)
Definition verify (w : World) (uid : string) (checks : Checks)
  : (string + VerificationResult) * list Event :=
  let '(r, s) := verifyAttestation w uid checks (mkState (initialResult uid) []) in
  (r, trace s).

(** *** Vocabulary of the properties *)

(** The state in which the checks start once the indexer has returned the
    attestation [a]. *)
Definition found (uid : string) (a : Attestation) : State :=
  mkState (setAttestation a (setExists true (initialResult uid)))
          [IndexerFetch (Query.uidQuery [uid])].

(** The largest number of seconds a [Date] can hold. *)
Definition maxSeconds : Z := 8640000000000.

(** The issues that do not report a failure: the informational entry and
    the warning of the cross-source check. *)
Definition informational (issue : string) : bool :=
  String.eqb issue "All checks passed" ||
  String.eqb issue "Warning: Could not verify on-chain data".

(** Partial correctness of a computation, with a postcondition for normal
    termination and one for a thrown error. *)
Definition triple {A} (P : State -> Prop) (m : M A)
           (Q : A -> State -> Prop) (E : string -> State -> Prop) : Prop :=
  forall s, P s ->
    match m s with
    | (inr a, s') => Q a s'
    | (inl e, s') => E e s'
    end.

(** The revocation check finds the attestation revoked. *)
Definition revokedHit (checks : Checks) (a : Attestation) : bool :=
  checkRevocation checks && (0 <? revocationTime a).

(** The expiration check finds the attestation expired. *)
Definition expiredHit (w : World) (checks : Checks) (a : Attestation) : bool :=
  checkExpiration checks && (0 <? expirationTime a) &&
  (expirationTime a <? nowSeconds w).

(** The cross-source check finds a mismatch (a failed lookup is none). *)
Definition mismatchHit (w : World) (uid : string) : bool :=
  match easGetAttestation w uid with
  | Rejects _ => false
  | Resolves o => onChainMismatch uid o
  end.

(** The verdict of the schema existence check on the attestation [a]. *)
Definition schemaValid (w : World) (a : Attestation) : bool :=
  match registryGetSchema w (schemaId (attSchema a)) with
  | Rejects _ => false
  | Resolves r => Js.truthyString (recSchema r)
  end.

(** The invariant of the checks: validity says that no failure has been
    reported, and "All checks passed" has not been reported yet. *)
Definition consistent (r : VerificationResult) : Prop :=
  isValid r = forallb informational (issues r) /\
  ~ In "All checks passed" (issues r).

(** A check keeps the result consistent; should it throw, "All checks
    passed" has still not been reported. *)
Definition keeps (m : M unit) : Prop :=
  triple (fun s => consistent (result s)) m
         (fun _ s => consistent (result s))
         (fun _ s => ~ In "All checks passed" (issues (result s))).

(** What holds of every result handed back to the caller. *)
Definition wellFormed (r : VerificationResult) : Prop :=
  isValid r = forallb informational (issues r) /\
  issues r <> [] /\
  (In "All checks passed" (issues r) -> issues r = ["All checks passed"]).

End Verify.

(* ------------------------------------------------------------------ *)
(** ** Regular expressions                                              *)
(* ------------------------------------------------------------------ *)

Module Regex.

(** The patterns of the logger are sequences of single-character classes
    and greedy stars of such classes ([c{n}] is [n] copies of [c], [c{n,}]
    is [c{n}c*]). *)
Inductive Atom : Type :=
| One (class : ascii -> bool)
| Star (class : ascii -> bool).

Definition Pattern : Type := list Atom.

(** Length of the match of [r] at the start of [s], if there is one.  The
    star first tries one more character and falls back to the rest of the
    pattern: the backtracking order of a greedy quantifier. *)
Fixpoint matchHere (r : Pattern) : string -> option nat :=
  match r with
  | [] => fun _ => Some O
  | One class :: r' =>
      fun s =>
        match s with
        | String c s' => if class c then option_map S (matchHere r' s') else None
        | EmptyString => None
        end
  | Star class :: r' =>
      fix star (s : string) : option nat :=
        match
          match s with
          | String c s' => if class c then option_map S (star s') else None
          | EmptyString => None
          end
        with
        | Some n => Some n
        | None => matchHere r' s
        end
  end.

(** [s.replace(/r/g, f)]: matches are looked for from left to right, each
    search resuming where the previous match ended (one character further
    after an empty match).  [skip] counts the characters of [s] that belong
    to the match being replaced. *)
Fixpoint replaceFrom (r : Pattern) (f : string -> string) (skip : nat)
         (s : string) : string :=
  match s with
  | EmptyString =>
      match skip, matchHere r EmptyString with
      | O, Some _ => f EmptyString
      | _, _ => EmptyString
      end
  | String c s' =>
      match skip with
      | S k => replaceFrom r f k s'
      | O =>
          match matchHere r s with
          | Some (S n) => (f (String.substring 0 (S n) s) ++ replaceFrom r f n s')%string
          | Some O => (f EmptyString ++ String c (replaceFrom r f O s'))%string
          | None => String c (replaceFrom r f O s')
          end
      end
  end.

Definition replaceAll (r : Pattern) (f : string -> string) (s : string) : string :=
  replaceFrom r f O s.

(** *** Character classes *)

Definition inRange (lo hi : nat) (c : ascii) : bool :=
  let n := nat_of_ascii c in (lo <=? n)%nat && (n <=? hi)%nat.

(** [[a-fA-F0-9]]. *)
Definition hexDigit (c : ascii) : bool :=
  inRange 97 102 c || inRange 65 70 c || inRange 48 57 c.

(** [.]: anything but a line terminator. *)
Definition dot (c : ascii) : bool :=
  negb (Nat.eqb (nat_of_ascii c) 10 || Nat.eqb (nat_of_ascii c) 13).

(** [\s] on Latin-1. *)
Definition whiteSpace (c : ascii) : bool :=
  inRange 9 13 c || Nat.eqb (nat_of_ascii c) 32 || Nat.eqb (nat_of_ascii c) 160.

(** [[a-z\s]] under the [i] flag. *)
Definition letterOrSpace (c : ascii) : bool :=
  inRange 97 122 c || inRange 65 90 c || whiteSpace c.

(** A literal character. *)
Definition exactly (l c : ascii) : bool := Ascii.eqb l c.

(** A literal character under the [i] flag. *)
Definition ignoringCase (l c : ascii) : bool :=
  Ascii.eqb (Js.lowerChar l) (Js.lowerChar c).

Fixpoint literal (cmp : ascii -> ascii -> bool) (s : string) : Pattern :=
  match s with
  | EmptyString => []
  | String l s' => One (cmp l) :: literal cmp s'
  end.

(** Every character of [s] is in the class. *)
Fixpoint allChars (class : ascii -> bool) (s : string) : bool :=
  match s with
  | EmptyString => true
  | String c s' => class c && allChars class s'
  end.


(** [/^r$/.test(s)] for a pattern without alternatives. *)
Definition fullMatch (r : Pattern) (s : string) : bool :=
  match matchHere r s with
  | Some n => Nat.eqb n (String.length s)
  | None => false
  end.

End Regex.

(* ------------------------------------------------------------------ *)
(** ** Logger (utils/logger.ts)                                         *)
(* ------------------------------------------------------------------ *)

Module Logger.
Import Regex.

(** [/private.*key.*[a-fA-F0-9]{64}/gi] *)
Definition privateKeyPattern : Pattern :=
  (literal ignoringCase "private" ++ [Star dot] ++
   literal ignoringCase "key" ++ [Star dot] ++
   repeat (One hexDigit) 64)%list.

(** [/mnemonic.*[a-z\s]{20,}/gi] *)
Definition mnemonicPattern : Pattern :=
  (literal ignoringCase "mnemonic" ++ [Star dot] ++
   repeat (One letterOrSpace) 20 ++ [Star letterOrSpace])%list.

(** [/0x[a-fA-F0-9]{40}/g] *)
Definition addressPattern : Pattern :=
  (literal exactly "0x" ++ repeat (One hexDigit) 40)%list.

(** The replacer of the address pattern. *)
Definition shorten (matched : string) : string :=
  if Js.includes "contract" (Js.toLowerCase matched) ||
     Js.includes "address" (Js.toLowerCase matched)
  then matched
  else Js.sliceTo 6 matched ++ "..." ++ Js.sliceLast 4 matched.

Definition redactSensitive (message : string) : string :=
  replaceAll addressPattern shorten
    (replaceAll mnemonicPattern (fun _ => "MNEMONIC_REDACTED")
       (replaceAll privateKeyPattern (fun _ => "PRIVATE_KEY_REDACTED") message)).










End Logger.

(* ------------------------------------------------------------------ *)
(** ** Schema codec: type inference (core/blockchain.ts)                *)
(* ------------------------------------------------------------------ *)

Module Codec.

(** The values of the field mapping: what [JSON.parse] produces. *)
#[local] Set Warnings "-register-all".

Section InferType.

(** [ethers.isAddress], the address test of the external [ethers]
    library. *)
Variable isAddress : string -> bool.


End InferType.

(** *** The address test

    [ethers.isAddress(value)] (ethers, version 6) holds when
    [getAddress(value)] does not throw:
    - a text of 40 hexadecimal characters, with or without the [0x]
      prefix, is an address unless it mixes upper-case and lower-case
      letters and is not spelled as its EIP-55 checksum asks;
    - a text of the ICAP shape is an address when its two check digits are
      right;
    - nothing else is.
    The checksum spelling needs keccak256 and the check digits need the
    IBAN arithmetic: both are parameters here. *)
Section IsAddress.

(** [getChecksumAddress(address)]: the EIP-55 spelling of a prefixed
    address. *)
Variable getChecksumAddress : string -> string.

(** [ibanChecksum(address)]: the check digits of an ICAP address. *)
Variable ibanChecksum : string -> string.






End IsAddress.

End Codec.


(* ------------------------------------------------------------------ *)
(** ** Validators and log sanitising (utils/crypto.ts)                  *)
(* ------------------------------------------------------------------ *)

Module Crypto.
Import Regex.

(** [/^(0x)?[a-fA-F0-9]{64}$/.test(key)]: with or without the prefix. *)
Definition isValidPrivateKey (key : string) : bool :=
  fullMatch (literal exactly "0x" ++ repeat (One hexDigit) 64)%list key ||
  fullMatch (repeat (One hexDigit) 64) key.

(** [/^0x[a-fA-F0-9]{40}$/.test(address)]. *)
Definition isValidAddress (address : string) : bool :=
  fullMatch (literal exactly "0x" ++ repeat (One hexDigit) 40)%list address.

(** [s.split(c)] for a separator of one character. *)
Fixpoint split (sep : ascii) (s : string) : list string :=
  match s with
  | EmptyString => [EmptyString]
  | String c s' =>
      if Ascii.eqb c sep then EmptyString :: split sep s'
      else match split sep s' with
           | piece :: pieces => String c piece :: pieces
           | [] => [String c EmptyString]
           end
  end.

Definition sanitizeForLog (data : string) : string :=
  if isValidPrivateKey data then "PRIVATE_KEY_REDACTED"
  else if Js.includes " " data && (12 <=? List.length (split " " data))%nat
       then "MNEMONIC_REDACTED"
       else data.

(** The number of occurrences of a character. *)
Fixpoint count (c : ascii) (s : string) : nat :=
  match s with
  | EmptyString => O
  | String x s' => ((if Ascii.eqb x c then 1 else 0) + count c s')%nat
  end.

End Crypto.

(* ------------------------------------------------------------------ *)
(** ** Sample inputs                                                    *)
(* ------------------------------------------------------------------ *)

Module Samples.
Import Verify.

Definition sampleUid : string :=
  "0xabc0000000000000000000000000000000000000000000000000000000000def".

Definition otherUid : string :=
  "0x1230000000000000000000000000000000000000000000000000000000000456".

Definition sampleSchema : SchemaRef :=
  mkSchemaRef "0x5c4e000000000000000000000000000000000000000000000000000000000001"
              "string eventName,uint256 prize".

(** An attestation with the given revocation and expiration times. *)
Definition sampleAttestation (revoked expires : Z) : Attestation :=
  mkAttestation sampleUid sampleSchema
    "0x742d35Cc6634C0532925a3b844Bc454e4438f44e"
    "0x1111111111111111111111111111111111111111"
    1600000000 revoked expires true.

(** A successful indexer response carrying [l]. *)
Definition indexerReturns (l : list Attestation) : Outcome Response :=
  Resolves (mkResponse true "OK" (Resolves (mkBody (Some l) None))).

Definition schemaFound : Outcome SchemaRecord :=
  Resolves (mkSchemaRecord "string eventName,uint256 prize"
              "0x0000000000000000000000000000000000000000" true).

(** The same answer to every call, at the clock 2027-01-15T08:00:00Z. *)
Definition world (indexer : Outcome Response)
           (onChain : Outcome (option OnChainAttestation))
           (schema : Outcome SchemaRecord) : World :=
  mkWorld (fun _ => indexer) (fun _ => onChain) (fun _ => schema) 1800000000000.

Definition onChainFound : Outcome (option OnChainAttestation) :=
  Resolves (Some (mkOnChain sampleUid)).

Definition bothChecks : Checks := mkChecks true true.




Definition sampleMnemonic : string :=
  "abandon abandon abandon abandon abandon abandon abandon abandon abandon abandon abandon about".

(** A private key without its [0x] prefix. *)
Definition bareKey : string :=
  "1234567890abcdef1234567890abcdef1234567890abcdef1234567890abcdef".

Definition sampleRecipient : string :=
  "0xAAAAAAAAAAAAAAAAAAAAAAAAAAAAAAAAAAAAAAAA".

(** [{ recipient: "0xAAAA...", limit: 10 }]. *)
Definition recipientAndLimit : Query.QueryOptions :=
  Query.mkQueryOptions None (Some sampleRecipient) None (Some 10) None.

End Samples.

(* ------------------------------------------------------------------ *)
(** ** Strings                                                          *)
(* ------------------------------------------------------------------ *)

Module StringFacts.

Lemma append_assoc (a b c : string) : ((a ++ b) ++ c = a ++ (b ++ c))%string.
Proof. induction a as [| x a IH]; cbn; [| rewrite IH]; reflexivity. Qed.

Lemma append_nil_r (a : string) : (a ++ "")%string = a.
Proof. induction a as [| x a IH]; cbn; [| rewrite IH]; reflexivity. Qed.

Lemma length_toLowerCase (a : string) :
  String.length (Js.toLowerCase a) = String.length a.
Proof. induction a as [| x a IH]; cbn; [| rewrite IH]; reflexivity. Qed.

Lemma toLowerCase_append (a b : string) :
  Js.toLowerCase (a ++ b) = (Js.toLowerCase a ++ Js.toLowerCase b)%string.
Proof. induction a as [| x a IH]; cbn; [| rewrite IH]; reflexivity. Qed.

Lemma prefix_nil (s : string) : String.prefix "" s = true.
Proof. destruct s; reflexivity. Qed.

Lemma prefix_cons (x y : ascii) (p s : string) :
  String.prefix (String x p) (String y s) =
  Ascii.eqb x y && String.prefix p s.
Proof.
  cbn -[ascii_dec]. destruct (ascii_dec x y) as [-> | Hne].
  - rewrite Ascii.eqb_refl. reflexivity.
  - apply Ascii.eqb_neq in Hne. rewrite Hne. reflexivity.
Qed.

Lemma includes_unfold (p s : string) :
  Js.includes p s =
  String.prefix p s ||
  match s with
  | EmptyString => false
  | String _ s' => Js.includes p s'
  end.
Proof. destruct s; reflexivity. Qed.

(** A text that holds no occurrence holds none in its suffixes. *)
Lemma includes_suffix (p a b : string) :
  Js.includes p (a ++ b) = false -> Js.includes p b = false.
Proof.
  induction a as [| x a IH]; intros H; [exact H |].
  cbn [append] in H. rewrite includes_unfold in H.
  apply orb_false_elim in H. destruct H as [_ H]. exact (IH H).
Qed.

Lemma includes_prefix (p s : string) :
  Js.includes p s = false -> String.prefix p s = false.
Proof.
  rewrite includes_unfold. intros H. apply orb_false_elim in H.
  destruct H as [H _]. exact H.
Qed.

Lemma substring_prefix (a t : string) :
  String.substring 0 (String.length a) (a ++ t) = a.
Proof.
  induction a as [| x a IH]; cbn.
  - destruct t; reflexivity.
  - rewrite IH. reflexivity.
Qed.

Lemma prefix_split (p s : string) :
  String.prefix p s = true -> exists b, s = (p ++ b)%string.
Proof.
  revert s. induction p as [| x p IH]; intros s H.
  - exists s. reflexivity.
  - destruct s as [| y s]; [discriminate H |].
    rewrite prefix_cons in H. apply andb_prop in H. destruct H as [Hxy H].
    apply Ascii.eqb_eq in Hxy. subst y. destruct (IH s H) as [b ->].
    exists b. reflexivity.
Qed.

Lemma prefix_append (p b : string) : String.prefix p (p ++ b) = true.
Proof.
  induction p as [| x p IH]; [apply prefix_nil |].
  cbn [append]. rewrite prefix_cons, Ascii.eqb_refl. exact IH.
Qed.

(** [s.includes(p)] holds exactly when [s] is some text, [p], some text. *)
Lemma includes_iff (p s : string) :
  Js.includes p s = true <-> exists a b, s = (a ++ p ++ b)%string.
Proof.
  split.
  - induction s as [| c s IH]; rewrite includes_unfold; intros H;
      apply orb_prop in H; destruct H as [H | H]; try discriminate H.
    + destruct (prefix_split p _ H) as [b Hb]. exists EmptyString, b. exact Hb.
    + destruct (prefix_split p _ H) as [b Hb]. exists EmptyString, b. exact Hb.
    + destruct (IH H) as [a [b ->]]. exists (String c a), b. reflexivity.
  - intros [a [b ->]]. induction a as [| c a IH].
    + cbn [append]. rewrite includes_unfold, prefix_append. reflexivity.
    + cbn [append]. rewrite includes_unfold, IH. apply orb_true_r.
Qed.

(** What a part of a text includes, the text includes. *)
Lemma includes_inside (p a s b : string) :
  Js.includes p s = true -> Js.includes p (a ++ s ++ b) = true.
Proof.
  intros H. apply includes_iff in H. destruct H as [x [y ->]].
  apply includes_iff. exists (a ++ x)%string, (y ++ b)%string.
  rewrite !append_assoc. reflexivity.
Qed.

Lemma includes_self (p : string) : Js.includes p p = true.
Proof.
  apply includes_iff. exists EmptyString, EmptyString.
  cbn. rewrite append_nil_r. reflexivity.
Qed.

Lemma includes_trans (p q s : string) :
  Js.includes p q = true -> Js.includes q s = true -> Js.includes p s = true.
Proof.
  intros Hpq Hqs. apply includes_iff in Hqs. destruct Hqs as [a [b ->]].
  apply includes_inside. exact Hpq.
Qed.

Lemma length_append (a b : string) :
  String.length (a ++ b) = (String.length a + String.length b)%nat.
Proof. induction a as [| x a IH]; cbn; [| rewrite IH]; reflexivity. Qed.

End StringFacts.

(* ------------------------------------------------------------------ *)
(** ** Properties of the verification engine                            *)
(* ------------------------------------------------------------------ *)

Module VerifyFacts.
Import Verify Samples.

#[local] Opaque Query.uidQuery.

Lemma getAttestationsByUID_run (w : World) (uids : list string) (s : State) :
  getAttestationsByUID w uids s =
  let q := Query.uidQuery uids in
  match indexerReply w uids with
  | inl e => (inl e, mkState (result s)
                       (trace s ++ [IndexerFetch q] ++
                        [LogError "Failed to get attestations by UID" e]))
  | inr l => (inr l, mkState (result s) (trace s ++ [IndexerFetch q]))
  end.
Proof.
  unfold getAttestationsByUID, indexerReply, tryCatch, bind, await, emit.
  cbv zeta. simpl.
  destruct (fetch w (Query.uidQuery uids)) as [e | response]; simpl.
  - rewrite <- app_assoc. reflexivity.
  - destruct (readResponse response); simpl; [rewrite <- app_assoc |]; reflexivity.
Qed.

Lemma getAttestation_run (w : World) (uid : string) (s : State) :
  getAttestation w uid s =
  match easGetAttestation w uid with
  | Rejects e => (inl e, mkState (result s)
                          (trace s ++ [RegistryGetAttestation uid] ++
                           [LogError ("Failed to get attestation " ++ uid) e]))
  | Resolves o => (inr o, mkState (result s) (trace s ++ [RegistryGetAttestation uid]))
  end.
Proof.
  unfold getAttestation, tryCatch, bind, await, emit. simpl.
  destruct (easGetAttestation w uid); simpl; [rewrite <- app_assoc |]; reflexivity.
Qed.

Lemma toISOString_valid (ms : Z) :
  - Js.maxTimeValue <= ms <= Js.maxTimeValue ->
  exists date, Js.toISOString ms = Some date.
Proof.
  intros H. unfold Js.toISOString.
  replace (Js.validTimeValue ms) with true.
  - destruct (Js.civilFromDays (ms / Js.msPerDay)) as [[y m] d]. eexists. reflexivity.
  - symmetry. unfold Js.validTimeValue. apply andb_true_intro.
    split; apply Z.leb_le; lia.
Qed.

#[local] Opaque Js.toISOString.

Lemma isoOfSeconds_run (t : Z) (s : State) :
  0 < t <= maxSeconds ->
  exists date, Js.toISOString (t * 1000) = Some date /\
               isoOfSeconds t s = (inr date, s).
Proof.
  intros H. destruct (toISOString_valid (t * 1000)) as [date Hd].
  - unfold Js.maxTimeValue, maxSeconds in *. lia.
  - exists date. split; [exact Hd |]. unfold isoOfSeconds. rewrite Hd. reflexivity.
Qed.

Lemma getSchema_run (w : World) (uid : string) (s : State) :
  getSchema w uid s =
  match registryGetSchema w uid with
  | Rejects e => (inl e, mkState (result s)
                          (trace s ++ [RegistryGetSchema uid] ++
                           [LogError ("Failed to get schema " ++ uid) e]))
  | Resolves r =>
      (inr (mkSchemaData uid (recSchema r) (recResolver r) (recRevocable r)),
       mkState (result s) (trace s ++ [RegistryGetSchema uid]))
  end.
Proof.
  unfold getSchema, tryCatch, bind, await, emit. simpl.
  destruct (registryGetSchema w uid); simpl; [rewrite <- app_assoc |]; reflexivity.
Qed.

(** *** What each check does to the state *)

Lemma revocationCheck_run (checks : Checks) (a : Attestation) (s : State) :
  revocationCheck checks a s =
  if checkRevocation checks && (0 <? revocationTime a) then
    match Js.toISOString (revocationTime a * 1000) with
    | Some date =>
        (inr tt, mkState (pushIssue ("Attestation was revoked on " ++ date)
                            (setValid false (setRevoked true (result s))))
                         (trace s))
    | None =>
        (inl "Invalid time value",
         mkState (setValid false (setRevoked true (result s))) (trace s))
    end
  else (inr tt, s).
Proof.
  unfold revocationCheck, when.
  destruct (checkRevocation checks && (0 <? revocationTime a)); [| reflexivity].
  unfold bind, update, isoOfSeconds. simpl.
  destruct (Js.toISOString (revocationTime a * 1000)); reflexivity.
Qed.

Lemma expirationCheck_run (w : World) (checks : Checks) (a : Attestation)
      (s : State) :
  expirationCheck w checks a s =
  if checkExpiration checks && (0 <? expirationTime a) &&
     (expirationTime a <? nowSeconds w) then
    match Js.toISOString (expirationTime a * 1000) with
    | Some date =>
        (inr tt, mkState (pushIssue ("Attestation expired on " ++ date)
                            (setValid false (setExpired true (result s))))
                         (trace s))
    | None =>
        (inl "Invalid time value",
         mkState (setValid false (setExpired true (result s))) (trace s))
    end
  else (inr tt, s).
Proof.
  unfold expirationCheck, when.
  destruct (checkExpiration checks && (0 <? expirationTime a)); [| reflexivity].
  cbv zeta. simpl andb.
  destruct (expirationTime a <? nowSeconds w); [| reflexivity].
  unfold bind, update, isoOfSeconds. simpl.
  destruct (Js.toISOString (expirationTime a * 1000)); reflexivity.
Qed.

Lemma crossSourceCheck_run (w : World) (uid : string) (s : State) :
  crossSourceCheck w uid s =
  match easGetAttestation w uid with
  | Rejects e =>
      (inr tt,
       mkState (pushIssue "Warning: Could not verify on-chain data" (result s))
               (trace s ++ [RegistryGetAttestation uid;
                            LogError ("Failed to get attestation " ++ uid) e;
                            LogWarn ("Could not verify on-chain data: " ++ e)]))
  | Resolves o =>
      (inr tt,
       mkState (if onChainMismatch uid o
                then pushIssue "Attestation data mismatch between on-chain and indexer"
                               (setValid false (result s))
                else result s)
               (trace s ++ [RegistryGetAttestation uid]))
  end.
Proof.
  unfold crossSourceCheck, tryCatch, bind. rewrite getAttestation_run.
  destruct (easGetAttestation w uid) as [e | o].
  - unfold emit, update. simpl. rewrite <- app_assoc. reflexivity.
  - unfold when. destruct (onChainMismatch uid o); reflexivity.
Qed.

Lemma schemaCheck_run (w : World) (a : Attestation) (s : State) :
  schemaCheck w a s =
  let id := schemaId (attSchema a) in
  match registryGetSchema w id with
  | Rejects e =>
      (inr tt,
       mkState (pushIssue "Failed to validate schema" (setValid false (result s)))
               (trace s ++ [RegistryGetSchema id;
                            LogError ("Failed to get schema " ++ id) e]))
  | Resolves r =>
      (inr tt,
       mkState (if Js.truthyString (recSchema r) then result s
                else pushIssue "Referenced schema does not exist or is invalid"
                               (setValid false (result s)))
               (trace s ++ [RegistryGetSchema id]))
  end.
Proof.
  unfold schemaCheck, tryCatch, bind. rewrite getSchema_run. cbv zeta.
  destruct (registryGetSchema w (schemaId (attSchema a))) as [e | r].
  - reflexivity.
  - unfold when. simpl. destruct (Js.truthyString (recSchema r)); reflexivity.
Qed.

Lemma allChecksPassed_run (s : State) :
  allChecksPassed s =
  (inr tt,
   match issues (result s) with
   | [] => mkState (pushIssue "All checks passed" (result s)) (trace s)
   | _ :: _ => s
   end).
Proof.
  unfold allChecksPassed, bind, getResult, when.
  destruct (issues (result s)); reflexivity.
Qed.

(** The outer [try]/[catch] around the checks of a found attestation. *)
Lemma verify_found (w : World) (uid : string) (checks : Checks)
      (a : Attestation) (rest : list Attestation) :
  indexerReply w [uid] = inr (a :: rest) ->
  verify w uid checks =
  match runChecks w uid checks a (found uid a) with
  | (inr _, s) => (inr (result s), trace s)
  | (inl e, s) =>
      (inr (pushIssue ("Verification failed: " ++ e) (setValid false (result s))),
       trace s)
  end.
Proof.
  intros H. unfold verify, verifyAttestation, verifyBody, tryCatch, bind at 1 2.
  rewrite getAttestationsByUID_run, H. cbv zeta.
  unfold bind at 1 2, update at 1 2. cbn [result trace app].
  fold (found uid a).
  destruct (runChecks w uid checks a (found uid a)) as [[e | []] s]; reflexivity.
Qed.

(** The outcome of the whole call when the indexer client fails. *)
Lemma verify_indexer_failure (w : World) (uid : string) (checks : Checks)
      (e : string) :
  indexerReply w [uid] = inl e ->
  verify w uid checks =
  (inr (mkResult uid false false false false None ["Verification failed: " ++ e]),
   [IndexerFetch (Query.uidQuery [uid]);
    LogError "Failed to get attestations by UID" e]).
Proof.
  intros H. unfold verify, verifyAttestation, verifyBody, tryCatch, bind at 1 2.
  rewrite getAttestationsByUID_run, H. reflexivity.
Qed.

(** The outcome of the whole call when the indexer finds nothing. *)
Lemma verify_empty_reply (w : World) (uid : string) (checks : Checks) :
  indexerReply w [uid] = inr [] ->
  verify w uid checks =
  (inr (mkResult uid false false false false None ["Attestation does not exist"]),
   [IndexerFetch (Query.uidQuery [uid])]).
Proof.
  intros H. unfold verify, verifyAttestation, verifyBody, tryCatch, bind at 1 2.
  rewrite getAttestationsByUID_run, H. reflexivity.
Qed.

(** C1: when the indexer query for the UID returns no attestation, [verify]
    returns the result with [exists = false], [isValid = false] and the
    issues list [["Attestation does not exist"]], and the only call it has
    made is the indexer query: neither the on-chain attestation nor the
    schema is fetched from the registry. *)
Theorem verify_not_found (w : World) (uid : string) (checks : Checks) :
  indexerReply w [uid] = inr [] ->
  verify w uid checks =
  (inr (mkResult uid false false false false None ["Attestation does not exist"]),
   [IndexerFetch (Query.uidQuery [uid])]) /\
  existsb isRegistryCall (snd (verify w uid checks)) = false.
Proof.
  intros H.
  assert (E : verify w uid checks =
    (inr (mkResult uid false false false false None ["Attestation does not exist"]),
     [IndexerFetch (Query.uidQuery [uid])])).
  { unfold verify, verifyAttestation, verifyBody, tryCatch, bind at 1 2.
    rewrite getAttestationsByUID_run, H. reflexivity. }
  split; [exact E | rewrite E; reflexivity].
Qed.

Lemma verify_not_found_witness :
  indexerReply (world (indexerReturns []) onChainFound schemaFound) [sampleUid]
    = inr [] /\
  existsb isRegistryCall
    (snd (verify (world (indexerReturns []) onChainFound schemaFound)
                 sampleUid bothChecks)) = false.
Proof.
  split; [reflexivity |].
  apply (verify_not_found (world (indexerReturns []) onChainFound schemaFound)
                          sampleUid bothChecks).
  reflexivity.
Defined.

(** Expose the next check of a pipeline and split on what decides it. *)
Ltac next_check :=
  first [ rewrite revocationCheck_run
        | rewrite expirationCheck_run
        | rewrite crossSourceCheck_run
        | rewrite schemaCheck_run
        | rewrite allChecksPassed_run ];
  cbv zeta.

Ltac split_check :=
  repeat match goal with
         | |- context [if ?b then _ else _] => destruct b eqn:?
         | |- context [match Js.toISOString ?t with _ => _ end] =>
             destruct (Js.toISOString t) eqn:?
         | |- context [match easGetAttestation ?w ?u with _ => _ end] =>
             destruct (easGetAttestation w u) eqn:?
         | |- context [match registryGetSchema ?w ?u with _ => _ end] =>
             destruct (registryGetSchema w u) eqn:?
         end.

(** The expiration date of an attestation that expired before a valid
    clock reading can always be rendered. *)
Lemma expired_renders (w : World) (a : Attestation) :
  0 <= dateNow w <= Js.maxTimeValue ->
  (0 <? expirationTime a) = true ->
  (expirationTime a <? nowSeconds w) = true ->
  Js.toISOString (expirationTime a * 1000) <> None.
Proof.
  intros Hnow Hpos Hlt. apply Z.ltb_lt in Hpos, Hlt. unfold nowSeconds in Hlt.
  destruct (toISOString_valid (expirationTime a * 1000)) as [d Hd].
  - unfold Js.maxTimeValue in *.
    assert (1000 * (dateNow w / 1000) <= dateNow w)
      by (apply Z.mul_div_le; lia).
    lia.
  - rewrite Hd. discriminate.
Qed.

(** A failure of the checks leaves no issue behind when the clock is
    valid: only the rendering of the revocation date can fail. *)
Lemma runChecks_failure (w : World) (uid : string) (checks : Checks)
      (a : Attestation) (e : string) (s : State) :
  0 <= dateNow w <= Js.maxTimeValue ->
  runChecks w uid checks a (found uid a) = (inl e, s) ->
  issues (result s) = [] /\ e = "Invalid time value".
Proof.
  intros Hnow. unfold runChecks, bind.
  next_check. split_check.
  - next_check.
    destruct (checkExpiration checks && (0 <? expirationTime a) &&
              (expirationTime a <? nowSeconds w)) eqn:Hexp.
    + apply andb_prop in Hexp. destruct Hexp as [Hexp Hlt].
      apply andb_prop in Hexp. destruct Hexp as [_ Hpos].
      destruct (Js.toISOString (expirationTime a * 1000)) eqn:Hd.
      * next_check. split_check; next_check; split_check; next_check;
          discriminate.
      * exfalso. exact (expired_renders w a Hnow Hpos Hlt Hd).
    + next_check. split_check; next_check; split_check; next_check;
        discriminate.
  - intros H. injection H as <- <-. split; reflexivity.
  - next_check.
    destruct (checkExpiration checks && (0 <? expirationTime a) &&
              (expirationTime a <? nowSeconds w)) eqn:Hexp.
    + apply andb_prop in Hexp. destruct Hexp as [Hexp Hlt].
      apply andb_prop in Hexp. destruct Hexp as [_ Hpos].
      destruct (Js.toISOString (expirationTime a * 1000)) eqn:Hd.
      * next_check. split_check; next_check; split_check; next_check;
          discriminate.
      * exfalso. exact (expired_renders w a Hnow Hpos Hlt Hd).
    + next_check. split_check; next_check; split_check; next_check;
        discriminate.
Qed.

(** C3, as stated, fails: a transport failure of the existence-check
    query is not propagated to the caller.  The query sits inside the outer
    [try], so the call returns a result carrying the failure as an issue. *)
Lemma indexer_failure_not_propagated :
  indexerReply (world (Rejects "fetch failed") onChainFound schemaFound)
               [sampleUid] = inl "fetch failed" /\
  fst (verify (world (Rejects "fetch failed") onChainFound schemaFound)
              sampleUid bothChecks)
  = inr (mkResult sampleUid false false false false None
                  ["Verification failed: fetch failed"]).
Proof. split; reflexivity. Qed.

(** C3, amended: [verify] never throws.  A failure of the existence-check
    query is caught like any other: the result has [exists = false],
    [isValid = false] and the single issue "Verification failed: <message>".
    An error thrown by a check after the existence check is caught as well:
    [isValid] is forced to false and "Verification failed: <message>" is
    appended to the issues, which holds no other issue when the clock is a
    valid time value. *)
Theorem verify_catches_every_failure (w : World) (uid : string) (checks : Checks) :
  (exists r, fst (verify w uid checks) = inr r) /\
  (forall e, indexerReply w [uid] = inl e ->
     fst (verify w uid checks) =
     inr (mkResult uid false false false false None
                   ["Verification failed: " ++ e])) /\
  (forall a rest e s,
     indexerReply w [uid] = inr (a :: rest) ->
     runChecks w uid checks a (found uid a) = (inl e, s) ->
     fst (verify w uid checks) =
     inr (pushIssue ("Verification failed: " ++ e) (setValid false (result s))) /\
     (0 <= dateNow w <= Js.maxTimeValue ->
      issues (pushIssue ("Verification failed: " ++ e) (setValid false (result s)))
      = ["Verification failed: " ++ e])).
Proof.
  split; [| split].
  - destruct (indexerReply w [uid]) as [e | [| a rest]] eqn:H.
    + rewrite (verify_indexer_failure w uid checks e H). eexists. reflexivity.
    + rewrite (verify_empty_reply w uid checks H). eexists. reflexivity.
    + rewrite (verify_found w uid checks a rest H).
      destruct (runChecks w uid checks a (found uid a)) as [[e | []] s];
        eexists; reflexivity.
  - intros e H. rewrite (verify_indexer_failure w uid checks e H). reflexivity.
  - intros a rest e s H Hrun.
    rewrite (verify_found w uid checks a rest H), Hrun. split; [reflexivity |].
    intros Hnow.
    destruct (runChecks_failure w uid checks a e s Hnow Hrun) as [Hissues _].
    cbn [issues pushIssue setValid]. rewrite Hissues. reflexivity.
Qed.

Lemma verify_catches_every_failure_witness :
  fst (verify (world (Rejects "fetch failed") onChainFound schemaFound)
              sampleUid bothChecks)
  = inr (mkResult sampleUid false false false false None
                  ["Verification failed: fetch failed"]) /\
  fst (verify (world (indexerReturns [sampleAttestation 9000000000000 0])
                     onChainFound schemaFound)
              sampleUid bothChecks)
  = inr (mkResult sampleUid false true true false
                  (Some (sampleAttestation 9000000000000 0))
                  ["Verification failed: Invalid time value"]).
Proof.
  split.
  - apply (proj1 (proj2 (verify_catches_every_failure
             (world (Rejects "fetch failed") onChainFound schemaFound)
             sampleUid bothChecks))).
    reflexivity.
  - apply (proj1 (proj2 (proj2 (verify_catches_every_failure
             (world (indexerReturns [sampleAttestation 9000000000000 0])
                    onChainFound schemaFound)
             sampleUid bothChecks))
             (sampleAttestation 9000000000000 0) [] "Invalid time value"
             (mkState (setValid false (setRevoked true
                         (result (found sampleUid
                                    (sampleAttestation 9000000000000 0)))))
                      [IndexerFetch (Query.uidQuery [sampleUid])])
             eq_refl eq_refl)).
Defined.

(** *** The validity invariant *)

Lemma triple_bind {A B} (P : State -> Prop) (m : M A) (k : A -> M B)
      (Q : A -> State -> Prop) (R : B -> State -> Prop)
      (E : string -> State -> Prop) :
  triple P m Q E ->
  (forall a, triple (Q a) (k a) R E) ->
  triple P (bind m k) R E.
Proof.
  intros Hm Hk s HP. unfold bind. specialize (Hm s HP).
  destruct (m s) as [[e | a] s']; [exact Hm | exact (Hk a s' Hm)].
Qed.

(** Reporting a failure keeps the result consistent. *)
Lemma consistent_failure (r r' : VerificationResult) (issue : string) :
  informational issue = false ->
  isValid r' = false ->
  issues r' = (issues r ++ [issue])%list ->
  ~ In "All checks passed" (issues r) ->
  consistent r'.
Proof.
  intros Hfail Hvalid Hissues Hnot. unfold consistent.
  rewrite Hvalid, Hissues, forallb_app. simpl. rewrite Hfail.
  split; [now rewrite andb_false_r |].
  intros Hin. apply in_app_or in Hin. destruct Hin as [Hin | [Heq | []]].
  - exact (Hnot Hin).
  - rewrite Heq in Hfail. discriminate.
Qed.

(** A failure that interrupts the checks is one more reported failure. *)
Lemma wellFormed_caught (r : VerificationResult) (e : string) :
  ~ In "All checks passed" (issues r) ->
  wellFormed (pushIssue ("Verification failed: " ++ e) (setValid false r)).
Proof.
  intros Hnot.
  destruct (consistent_failure r
              (pushIssue ("Verification failed: " ++ e) (setValid false r))
              ("Verification failed: " ++ e)) as [Hvalid Hnot'];
    try reflexivity; try assumption.
  split; [exact Hvalid | split].
  - cbn. intros H. apply app_eq_nil in H. destruct H; discriminate.
  - intros Hin. contradiction.
Qed.

Lemma revocationCheck_keeps (checks : Checks) (a : Attestation) :
  keeps (revocationCheck checks a).
Proof.
  intros s [Hv Hn]. rewrite revocationCheck_run. split_check.
  - eapply consistent_failure; [| | reflexivity | exact Hn]; reflexivity.
  - exact Hn.
  - split; assumption.
Qed.

Lemma expirationCheck_keeps (w : World) (checks : Checks) (a : Attestation) :
  keeps (expirationCheck w checks a).
Proof.
  intros s [Hv Hn]. rewrite expirationCheck_run. split_check.
  - eapply consistent_failure; [| | reflexivity | exact Hn]; reflexivity.
  - exact Hn.
  - split; assumption.
Qed.

Lemma crossSourceCheck_keeps (w : World) (uid : string) :
  keeps (crossSourceCheck w uid).
Proof.
  intros s [Hv Hn]. rewrite crossSourceCheck_run. split_check.
  - split; cbn.
    + rewrite forallb_app, <- Hv. cbn. now rewrite andb_true_r.
    + intros Hin. apply in_app_or in Hin.
      destruct Hin as [Hin | [Heq | []]]; [exact (Hn Hin) | discriminate].
  - eapply consistent_failure; [| | reflexivity | exact Hn]; reflexivity.
  - split; assumption.
Qed.

Lemma schemaCheck_keeps (w : World) (a : Attestation) :
  keeps (schemaCheck w a).
Proof.
  intros s [Hv Hn]. rewrite schemaCheck_run. cbv zeta. split_check.
  - eapply consistent_failure; [| | reflexivity | exact Hn]; reflexivity.
  - split; assumption.
  - eapply consistent_failure; [| | reflexivity | exact Hn]; reflexivity.
Qed.

Lemma runChecks_wellFormed (w : World) (uid : string) (checks : Checks)
      (a : Attestation) :
  triple (fun s => consistent (result s)) (runChecks w uid checks a)
         (fun _ s => wellFormed (result s))
         (fun _ s => ~ In "All checks passed" (issues (result s))).
Proof.
  unfold runChecks.
  eapply triple_bind; [apply revocationCheck_keeps | intros []].
  eapply triple_bind; [apply expirationCheck_keeps | intros []].
  eapply triple_bind; [apply crossSourceCheck_keeps | intros []].
  eapply triple_bind; [apply schemaCheck_keeps | intros []].
  intros s [Hv Hn]. rewrite allChecksPassed_run.
  destruct (issues (result s)) as [| i l] eqn:Hi.
  - unfold wellFormed. cbn. rewrite Hi, Hv. cbn.
    split; [reflexivity | split; [discriminate | reflexivity]].
  - unfold wellFormed. rewrite Hi in *.
    split; [exact Hv | split; [discriminate | intros Hin; contradiction]].
Qed.

Lemma verify_wellFormed (w : World) (uid : string) (checks : Checks) :
  exists r, fst (verify w uid checks) = inr r /\ wellFormed r.
Proof.
  destruct (indexerReply w [uid]) as [e | [| a rest]] eqn:H.
  - rewrite (verify_indexer_failure w uid checks e H). eexists.
    split; [reflexivity |].
    apply (wellFormed_caught (initialResult uid) e). intros [].
  - rewrite (verify_empty_reply w uid checks H). eexists.
    split; [reflexivity |]. unfold wellFormed. cbn.
    split; [reflexivity | split; [discriminate |]].
    intros [Heq | []]. discriminate.
  - rewrite (verify_found w uid checks a rest H).
    assert (Hstart : consistent (result (found uid a)))
      by (split; [reflexivity | intros []]).
    pose proof (runChecks_wellFormed w uid checks a (found uid a) Hstart) as Hrun.
    destruct (runChecks w uid checks a (found uid a)) as [[e | []] s];
      eexists; (split; [reflexivity |]).
    + apply wellFormed_caught. exact Hrun.
    + exact Hrun.
Qed.

Lemma informational_iff (i : string) :
  informational i = true <->
  i = "All checks passed" \/ i = "Warning: Could not verify on-chain data".
Proof.
  unfold informational. rewrite orb_true_iff, !String.eqb_eq. reflexivity.
Qed.

(** C2, as stated, fails: when the on-chain lookup throws, the issues list
    holds only the warning, so it is not empty and has no "All checks
    passed" entry, yet [isValid] is true. *)
Lemma warning_leaves_result_valid :
  exists r,
    fst (verify (world (indexerReturns [sampleAttestation 0 0])
                       (Rejects "network down") schemaFound)
                sampleUid bothChecks) = inr r /\
    isValid r = true /\
    issues r = ["Warning: Could not verify on-chain data"] /\
    forallb (String.eqb "All checks passed") (issues r) = false.
Proof. eexists. repeat split. Qed.

(** C2, amended: [verify] always returns a result, and in it [isValid] is
    true if and only if every issue is either the informational "All checks
    passed" or the warning "Warning: Could not verify on-chain data".  The
    issues list is never empty; "All checks passed" is reported exactly
    when the result is valid and carries no warning, and it is then the
    only issue. *)
Theorem valid_iff_no_failure_issue (w : World) (uid : string) (checks : Checks) :
  exists r,
    fst (verify w uid checks) = inr r /\
    (isValid r = true <->
     forall i, In i (issues r) ->
       i = "All checks passed" \/
       i = "Warning: Could not verify on-chain data") /\
    issues r <> [] /\
    (In "All checks passed" (issues r) <->
     isValid r = true /\
     ~ In "Warning: Could not verify on-chain data" (issues r)) /\
    (In "All checks passed" (issues r) -> issues r = ["All checks passed"]).
Proof.
  destruct (verify_wellFormed w uid checks) as [r [Hr [Hvalid [Hne Hpassed]]]].
  exists r. split; [exact Hr |].
  assert (Hiff : isValid r = true <->
                 forall i, In i (issues r) ->
                   i = "All checks passed" \/
                   i = "Warning: Could not verify on-chain data").
  { rewrite Hvalid, forallb_forall. split; intros H i Hin.
    - apply informational_iff. exact (H i Hin).
    - apply informational_iff. exact (H i Hin). }
  split; [exact Hiff | split; [exact Hne | split; [| exact Hpassed]]].
  split.
  - intros Hin. rewrite (Hpassed Hin) in *. split.
    + rewrite Hvalid. reflexivity.
    + intros [Heq | []]. discriminate.
  - intros [Hv Hw]. destruct (issues r) as [| i l] eqn:Hi; [contradiction |].
    destruct (proj1 Hiff Hv i (or_introl eq_refl)) as [Heq | Heq]; subst i.
    + left. reflexivity.
    + exfalso. apply Hw. left. reflexivity.
Qed.

Lemma valid_iff_no_failure_issue_witness :
  exists r,
    fst (verify (world (indexerReturns [sampleAttestation 1700000000 0])
                       onChainFound schemaFound)
                sampleUid bothChecks) = inr r /\
    issues r <> [].
Proof.
  destruct (valid_iff_no_failure_issue
              (world (indexerReturns [sampleAttestation 1700000000 0])
                     onChainFound schemaFound)
              sampleUid bothChecks) as [r [Hr [_ [Hne _]]]].
  exists r. split; assumption.
Defined.

(** *** The cross-source consistency check *)

Lemma revoked_renders (a : Attestation) :
  revocationTime a <= maxSeconds ->
  (0 <? revocationTime a) = true ->
  Js.toISOString (revocationTime a * 1000) <> None.
Proof.
  intros Hmax Hpos. apply Z.ltb_lt in Hpos.
  destruct (toISOString_valid (revocationTime a * 1000)) as [d Hd].
  - unfold Js.maxTimeValue, maxSeconds in *. lia.
  - rewrite Hd. discriminate.
Qed.

(** Run the revocation and the expiration check of a pipeline whose dates
    can be rendered. *)
Ltac local_checks Hmax Hnow :=
  unfold runChecks, bind;
  next_check;
  match goal with
  | |- context [if ?b then _ else _] =>
      let Hb := fresh "Hrev" in
      destruct b eqn:Hb;
      [ let Hd := fresh "Hdate" in
        match goal with
        | |- context [match Js.toISOString ?t with _ => _ end] =>
            destruct (Js.toISOString t) eqn:Hd;
            [| exfalso; apply andb_prop in Hb; destruct Hb as [_ Hb];
               exact (revoked_renders _ Hmax Hb Hd)]
        end
      | ]
  end;
  next_check;
  match goal with
  | |- context [if ?b then _ else _] =>
      let Hb := fresh "Hexp" in
      destruct b eqn:Hb;
      [ let Hd := fresh "Hdate" in
        match goal with
        | |- context [match Js.toISOString ?t with _ => _ end] =>
            destruct (Js.toISOString t) eqn:Hd;
            [| exfalso; apply andb_prop in Hb; destruct Hb as [Hb ?];
               apply andb_prop in Hb; destruct Hb as [_ Hb];
               eapply (expired_renders _ _ Hnow Hb); eassumption]
        end
      | ]
  end.

(** C4: in the cross-source consistency check, a lookup that throws is not
    propagated: the check completes, appends the warning "Warning: Could not
    verify on-chain data" and leaves [isValid] as it was; a lookup that
    returns a record whose identifier differs from the requested UID
    appends "Attestation data mismatch between on-chain and indexer" and
    sets [isValid] to false.  In the whole call (with dates that can be
    rendered) a throwing lookup yields a returned result that carries the
    warning and whose [isValid] is decided by the revocation, expiration
    and schema checks alone. *)
Theorem cross_source_check (w : World) (uid : string) :
  (forall s e,
     easGetAttestation w uid = Rejects e ->
     exists tr,
       crossSourceCheck w uid s =
       (inr tt,
        mkState (pushIssue "Warning: Could not verify on-chain data" (result s)) tr) /\
       isValid (pushIssue "Warning: Could not verify on-chain data" (result s))
       = isValid (result s)) /\
  (forall s o,
     easGetAttestation w uid = Resolves (Some o) ->
     onChainUid o <> uid ->
     exists tr,
       crossSourceCheck w uid s =
       (inr tt,
        mkState (pushIssue "Attestation data mismatch between on-chain and indexer"
                           (setValid false (result s))) tr)) /\
  (forall checks a rest e,
     indexerReply w [uid] = inr (a :: rest) ->
     easGetAttestation w uid = Rejects e ->
     revocationTime a <= maxSeconds ->
     0 <= dateNow w <= Js.maxTimeValue ->
     exists r,
       fst (verify w uid checks) = inr r /\
       In "Warning: Could not verify on-chain data" (issues r) /\
       isValid r = negb (isRevoked r) && negb (isExpired r) && schemaValid w a).
Proof.
  split; [| split].
  - intros s e He. rewrite crossSourceCheck_run, He. eexists.
    split; reflexivity.
  - intros s o Ho Hne. rewrite crossSourceCheck_run, Ho. eexists.
    unfold onChainMismatch. apply String.eqb_neq in Hne. rewrite Hne.
    reflexivity.
  - intros checks a rest e Hfound He Hmax Hnow.
    rewrite (verify_found w uid checks a rest Hfound).
    unfold schemaValid.
    local_checks Hmax Hnow;
      next_check; rewrite He; next_check; split_check; next_check;
      eexists; (split; [reflexivity |]); cbn;
      (split; [tauto | reflexivity]).
Qed.

Lemma cross_source_check_witness :
  (exists tr,
     crossSourceCheck
       (world (indexerReturns [sampleAttestation 0 0]) (Rejects "network down")
              schemaFound)
       sampleUid (found sampleUid (sampleAttestation 0 0)) =
     (inr tt,
      mkState (pushIssue "Warning: Could not verify on-chain data"
                 (result (found sampleUid (sampleAttestation 0 0)))) tr) /\
     isValid (pushIssue "Warning: Could not verify on-chain data"
                (result (found sampleUid (sampleAttestation 0 0)))) = true) /\
  (exists tr,
     crossSourceCheck
       (world (indexerReturns [sampleAttestation 0 0])
              (Resolves (Some (mkOnChain otherUid))) schemaFound)
       sampleUid (found sampleUid (sampleAttestation 0 0)) =
     (inr tt,
      mkState (pushIssue "Attestation data mismatch between on-chain and indexer"
                 (setValid false (result (found sampleUid (sampleAttestation 0 0)))))
              tr)) /\
  (exists r,
     fst (verify (world (indexerReturns [sampleAttestation 1700000000 0])
                        (Rejects "network down") schemaFound)
                 sampleUid bothChecks) = inr r /\
     In "Warning: Could not verify on-chain data" (issues r) /\
     isValid r = negb (isRevoked r) && negb (isExpired r) &&
                 schemaValid (world (indexerReturns [sampleAttestation 1700000000 0])
                                    (Rejects "network down") schemaFound)
                             (sampleAttestation 1700000000 0)).
Proof.
  split; [| split].
  - apply (proj1 (cross_source_check
             (world (indexerReturns [sampleAttestation 0 0])
                    (Rejects "network down") schemaFound) sampleUid)
             (found sampleUid (sampleAttestation 0 0)) "network down").
    reflexivity.
  - apply (proj1 (proj2 (cross_source_check
             (world (indexerReturns [sampleAttestation 0 0])
                    (Resolves (Some (mkOnChain otherUid))) schemaFound) sampleUid))
             (found sampleUid (sampleAttestation 0 0)) (mkOnChain otherUid)).
    + reflexivity.
    + discriminate.
  - apply (proj2 (proj2 (cross_source_check
             (world (indexerReturns [sampleAttestation 1700000000 0])
                    (Rejects "network down") schemaFound) sampleUid))
             bothChecks (sampleAttestation 1700000000 0) [] "network down").
    + reflexivity.
    + reflexivity.
    + unfold maxSeconds. simpl. lia.
    + unfold Js.maxTimeValue. simpl. lia.
Defined.

(** C9: a lookup that succeeds but returns no record is handled as an
    identifier mismatch: the check appends "Attestation data mismatch
    between on-chain and indexer" and sets [isValid] to false; it does not
    take the warning path (no warning is logged or appended).  In the whole
    call (with dates that can be rendered) the returned result is invalid,
    carries the mismatch issue and no warning. *)
Theorem missing_record_is_mismatch (w : World) (uid : string) :
  easGetAttestation w uid = Resolves None ->
  (forall s,
     crossSourceCheck w uid s =
     (inr tt,
      mkState (pushIssue "Attestation data mismatch between on-chain and indexer"
                         (setValid false (result s)))
              (trace s ++ [RegistryGetAttestation uid]))) /\
  (forall checks a rest,
     indexerReply w [uid] = inr (a :: rest) ->
     revocationTime a <= maxSeconds ->
     0 <= dateNow w <= Js.maxTimeValue ->
     exists r,
       fst (verify w uid checks) = inr r /\
       isValid r = false /\
       In "Attestation data mismatch between on-chain and indexer" (issues r) /\
       ~ In "Warning: Could not verify on-chain data" (issues r)).
Proof.
  intros Hnone. split.
  - intros s. rewrite crossSourceCheck_run, Hnone. reflexivity.
  - intros checks a rest Hfound Hmax Hnow.
    rewrite (verify_found w uid checks a rest Hfound).
    local_checks Hmax Hnow;
      next_check; rewrite Hnone; cbn [onChainMismatch];
      next_check; split_check; next_check;
      eexists; (split; [reflexivity |]); cbn;
      (split; [reflexivity | split; [tauto |]]);
      intros Hin;
      repeat match goal with
             | H : _ \/ _ |- _ => destruct H
             | H : _ = "Warning: Could not verify on-chain data" |- _ =>
                 discriminate H
             | H : False |- _ => contradiction
             end.
Qed.

Lemma missing_record_is_mismatch_witness :
  exists r,
    fst (verify (world (indexerReturns [sampleAttestation 0 0]) (Resolves None)
                       schemaFound)
                sampleUid bothChecks) = inr r /\
    isValid r = false /\
    In "Attestation data mismatch between on-chain and indexer" (issues r) /\
    ~ In "Warning: Could not verify on-chain data" (issues r).
Proof.
  apply (proj2 (missing_record_is_mismatch
           (world (indexerReturns [sampleAttestation 0 0]) (Resolves None)
                  schemaFound)
           sampleUid eq_refl)
           bothChecks (sampleAttestation 0 0) []).
  - reflexivity.
  - unfold maxSeconds. simpl. lia.
  - unfold Js.maxTimeValue. simpl. lia.
Defined.

(** *** The expiration check *)

(** C5, as stated, fails in two ways.  An expiration timestamp that is
    nonzero and earlier than the clock but negative does not expire the
    attestation, because the check asks for a positive timestamp.  And an
    attestation whose revocation date cannot be rendered interrupts the
    checks before the expiration check runs, so [isExpired] stays false
    although the expiration timestamp 1 is nonzero and long past. *)
Lemma nonzero_past_expiration_not_expired :
  (nowSeconds (world (indexerReturns [sampleAttestation 0 (-1)])
                     onChainFound schemaFound) = 1800000000 /\
   fst (verify (world (indexerReturns [sampleAttestation 0 (-1)])
                      onChainFound schemaFound)
               sampleUid bothChecks)
   = inr (mkResult sampleUid true true false false
                   (Some (sampleAttestation 0 (-1))) ["All checks passed"])) /\
  fst (verify (world (indexerReturns [sampleAttestation 9000000000000 1])
                     onChainFound schemaFound)
              sampleUid bothChecks)
  = inr (mkResult sampleUid false true true false
                  (Some (sampleAttestation 9000000000000 1))
                  ["Verification failed: Invalid time value"]).
Proof. repeat split. Qed.

(** C5, amended: for an existing attestation verified with
    [checkExpiration = true], a zero expiration timestamp always leaves
    [isExpired] false; and when the dates can be rendered (the revocation
    check does not throw), [isExpired] is true exactly when the expiration
    timestamp is positive and strictly less than the current time in
    seconds, in which case [isValid] is false and the issue "Attestation
    expired on <date>" is reported. *)
Theorem expired_iff_positive_and_past
        (w : World) (uid : string) (checks : Checks)
        (a : Attestation) (rest : list Attestation) :
  indexerReply w [uid] = inr (a :: rest) ->
  checkExpiration checks = true ->
  (expirationTime a = 0 ->
   exists r, fst (verify w uid checks) = inr r /\ isExpired r = false) /\
  (revocationTime a <= maxSeconds ->
   0 <= dateNow w <= Js.maxTimeValue ->
   exists r,
     fst (verify w uid checks) = inr r /\
     (isExpired r = true <-> 0 < expirationTime a < nowSeconds w) /\
     (isExpired r = true ->
      isValid r = false /\
      exists date,
        Js.toISOString (expirationTime a * 1000) = Some date /\
        In ("Attestation expired on " ++ date) (issues r))).
Proof.
  intros Hfound Hcheck. split.
  - intros Hzero. rewrite (verify_found w uid checks a rest Hfound).
    unfold runChecks, bind. next_check. split_check;
      try (eexists; split; reflexivity);
      next_check; rewrite Hzero, andb_false_r; cbn [andb];
      next_check; split_check; next_check; split_check; next_check;
      eexists; split; reflexivity.
  - intros Hmax Hnow. rewrite (verify_found w uid checks a rest Hfound).
    local_checks Hmax Hnow;
      rewrite Hcheck in Hexp; cbn [andb] in Hexp;
      next_check; split_check; next_check; split_check; next_check;
      eexists; (split; [reflexivity |]); cbn;
      first
        [ (* the attestation has expired *)
          apply andb_prop in Hexp; destruct Hexp as [Hpos Hlt];
          apply Z.ltb_lt in Hpos, Hlt;
          split;
          [ split; [intros _; split; assumption | reflexivity]
          | intros _; split; [reflexivity | eexists; split; [reflexivity | tauto]] ]
        | (* it has not *)
          apply andb_false_iff in Hexp;
          split;
          [ split; [discriminate |];
            intros [Hpos Hlt]; apply Z.ltb_lt in Hpos, Hlt;
            destruct Hexp as [Hexp | Hexp]; rewrite Hexp in *; discriminate
          | discriminate ] ].
Qed.

Lemma expired_iff_positive_and_past_witness :
  exists r,
    fst (verify (world (indexerReturns [sampleAttestation 0 1700000000])
                       onChainFound schemaFound)
                sampleUid bothChecks) = inr r /\
    (isExpired r = true <->
     0 < 1700000000 < nowSeconds (world (indexerReturns [sampleAttestation 0 1700000000])
                                        onChainFound schemaFound)) /\
    (isExpired r = true ->
     isValid r = false /\
     exists date,
       Js.toISOString (1700000000 * 1000) = Some date /\
       In ("Attestation expired on " ++ date) (issues r)).
Proof.
  apply (proj2 (expired_iff_positive_and_past
           (world (indexerReturns [sampleAttestation 0 1700000000])
                  onChainFound schemaFound)
           sampleUid bothChecks (sampleAttestation 0 1700000000) []
           eq_refl eq_refl)).
  - unfold maxSeconds. simpl. lia.
  - unfold Js.maxTimeValue. simpl. lia.
Defined.

End VerifyFacts.

(* ------------------------------------------------------------------ *)
(** ** Properties of the query builder                                  *)
(* ------------------------------------------------------------------ *)

Module QueryFacts.
Import Query Samples.

Lemma truthyString_nonempty (s : string) :
  s <> "" -> Js.truthyString s = true.
Proof. destruct s; [contradiction | reflexivity]. Qed.

(** An absent filter contributes no condition. *)
Lemma condition_absent (key : string) : condition key None = [].
Proof. reflexivity. Qed.

(** Every condition of a filter starts with the name of the filter. *)
Lemma condition_key (key : string) (field : option string) (c : string) :
  In c (condition key field) -> String.prefix (key ++ ": ") c = true.
Proof.
  unfold condition. destruct field as [v |]; [| contradiction].
  destruct (Js.truthyString v); [| contradiction].
  intros [<- | []].
  induction key as [| k key IH]; cbn -[ascii_dec].
  - reflexivity.
  - destruct (ascii_dec k k); [exact IH | contradiction].
Qed.

(** No condition of the attestation query names a filter that is absent. *)
Lemma absent_filters_omitted (options : QueryOptions) (c : string) :
  In c (conditions options) ->
  (schema options = None -> String.prefix "schemaId: " c = false) /\
  (recipient options = None -> String.prefix "recipient: " c = false) /\
  (attester options = None -> String.prefix "attester: " c = false).
Proof.
  unfold conditions. intros Hin.
  apply in_app_or in Hin. destruct Hin as [Hin | Hin];
    [| apply in_app_or in Hin; destruct Hin as [Hin | Hin]].
  - pose proof (condition_key _ _ _ Hin) as Hk.
    destruct c as [| c0 c]; [discriminate |].
    repeat split; intros Hnone.
    + rewrite Hnone in Hin. contradiction.
    + cbn -[ascii_dec] in Hk |- *. destruct (ascii_dec "s" c0); [subst c0 | discriminate Hk].
      reflexivity.
    + cbn -[ascii_dec] in Hk |- *. destruct (ascii_dec "s" c0); [subst c0 | discriminate Hk].
      reflexivity.
  - pose proof (condition_key _ _ _ Hin) as Hk.
    destruct c as [| c0 c]; [discriminate |].
    repeat split; intros Hnone.
    + cbn -[ascii_dec] in Hk |- *. destruct (ascii_dec "r" c0); [subst c0 | discriminate Hk].
      reflexivity.
    + rewrite Hnone in Hin. contradiction.
    + cbn -[ascii_dec] in Hk |- *. destruct (ascii_dec "r" c0); [subst c0 | discriminate Hk].
      reflexivity.
  - pose proof (condition_key _ _ _ Hin) as Hk.
    destruct c as [| c0 c]; [discriminate |].
    repeat split; intros Hnone.
    + cbn -[ascii_dec] in Hk |- *. destruct (ascii_dec "a" c0); [subst c0 | discriminate Hk].
      reflexivity.
    + cbn -[ascii_dec] in Hk |- *. destruct (ascii_dec "a" c0); [subst c0 | discriminate Hk].
      reflexivity.
    + rewrite Hnone in Hin. contradiction.
Qed.

(** Empty clauses are dropped before the clauses are joined. *)
Lemma joinClauses_drop_last (clauses : list string) :
  joinClauses (clauses ++ [""]) = joinClauses clauses.
Proof.
  unfold joinClauses. rewrite filter_app. cbn. now rewrite app_nil_r.
Qed.

Lemma offsetClause_falsy (off : option Z) :
  off = None \/ off = Some 0 -> offsetClause off = "".
Proof. intros [-> | ->]; reflexivity. Qed.

(** Every joined item is part of the joined text. *)
Lemma join_includes (sep c : string) (items : list string) :
  In c items -> Js.includes c (Js.join sep items) = true.
Proof.
  induction items as [| x [| y items] IH]; intros Hin.
  - contradiction.
  - destruct Hin as [-> | []]. apply StringFacts.includes_self.
  - change (Js.join sep (x :: y :: items))
      with (x ++ sep ++ Js.join sep (y :: items))%string.
    destruct Hin as [-> | Hin].
    + apply (StringFacts.includes_inside c "" c), StringFacts.includes_self.
    + rewrite <- (StringFacts.append_nil_r (Js.join sep (y :: items))).
      rewrite <- StringFacts.append_assoc.
      apply StringFacts.includes_inside. exact (IH Hin).
Qed.

(** Every clause that is not empty is part of the rendered arguments. *)
Lemma clause_rendered (c : string) (clauses : list string) :
  In c clauses -> c <> "" -> Js.includes c (joinClauses clauses) = true.
Proof.
  intros Hin Hne. unfold joinClauses. apply join_includes, filter_In.
  split; [exact Hin | exact (truthyString_nonempty c Hne)].
Qed.

(** The arguments are part of the query text. *)
Lemma arguments_in_attestationQuery (p args : string) :
  Js.includes p args = true -> Js.includes p (attestationQuery args) = true.
Proof.
  intros H. unfold attestationQuery.
  rewrite <- (StringFacts.append_assoc nl), <- (StringFacts.append_assoc (nl ++ _)),
          <- (StringFacts.append_assoc ((nl ++ _) ++ _)).
  apply StringFacts.includes_inside. exact H.
Qed.

Lemma arguments_in_schemaQuery (p args : string) :
  Js.includes p args = true -> Js.includes p (schemaQuery args) = true.
Proof.
  intros H. unfold schemaQuery.
  rewrite <- (StringFacts.append_assoc nl), <- (StringFacts.append_assoc (nl ++ _)),
          <- (StringFacts.append_assoc ((nl ++ _) ++ _)).
  apply StringFacts.includes_inside. exact H.
Qed.

(** C6: a predicate with only a recipient and limit 10 renders the single
    equality filter [recipient] and [first: 10], with no skip clause: the
    query text contains [attestations(where: { recipient: "r" }, first: 10)],
    and for the recipient of the specification the words "skip" and
    "offset" do not occur in it at all.  In general no condition is
    rendered for an absent filter and every condition of a present filter
    occurs in the query text; an absent limit puts [first: 100] into the
    text of an attestation query and [first: 50] into the text of a schema
    query, a limit [n] other than zero puts [first: n] there; an absent or
    zero offset renders no skip clause, another offset [n] renders
    [skip: n]. *)
Theorem query_builder_filters_and_defaults :
  (forall r,
     r <> "" ->
     conditions (mkQueryOptions None (Some r) None (Some 10) None)
     = ["recipient: " ++ Js.quote ++ r ++ Js.quote] /\
     buildGraphQLQuery (mkQueryOptions None (Some r) None (Some 10) None)
     = attestationQuery
         ("where: { recipient: " ++ Js.quote ++ r ++ Js.quote ++ " }, first: 10")) /\
  (Js.includes "first: 10" (buildGraphQLQuery recipientAndLimit) = true /\
   Js.includes "skip" (buildGraphQLQuery recipientAndLimit) = false /\
   Js.includes "offset" (buildGraphQLQuery recipientAndLimit) = false) /\
  (forall options c,
     In c (conditions options) ->
     (schema options = None -> String.prefix "schemaId: " c = false) /\
     (recipient options = None -> String.prefix "recipient: " c = false) /\
     (attester options = None -> String.prefix "attester: " c = false)) /\
  (forall options,
     schema options = None -> recipient options = None ->
     attester options = None ->
     whereClause (conditions options) = "") /\
  (forall options,
     creator options = None ->
     buildSchemaQuery options
     = schemaQuery (limitClause "first: 50" (schemaLimit options))) /\
  (forall options,
     limit options = None ->
     buildGraphQLQuery options
     = attestationQuery
         (joinClauses [whereClause (conditions options); "first: 100";
                       offsetClause (offset options)])) /\
  (forall options,
     schemaLimit options = None ->
     buildSchemaQuery options
     = schemaQuery
         (joinClauses [whereClause (condition "creator" (creator options));
                       "first: 50"])) /\
  (forall options,
     offset options = None \/ offset options = Some 0 ->
     buildGraphQLQuery options
     = attestationQuery
         (joinClauses [whereClause (conditions options);
                       limitClause "first: 100" (limit options)])) /\
  (forall r,
     r <> "" ->
     Js.includes
       ("attestations(where: { recipient: " ++ Js.quote ++ r ++ Js.quote ++
        " }, first: 10) {")
       (buildGraphQLQuery (mkQueryOptions None (Some r) None (Some 10) None))
     = true) /\
  (forall options c,
     In c (conditions options) ->
     Js.includes c (buildGraphQLQuery options) = true) /\
  (forall options,
     limit options = None ->
     Js.includes "first: 100" (buildGraphQLQuery options) = true) /\
  (forall options,
     schemaLimit options = None ->
     Js.includes "first: 50" (buildSchemaQuery options) = true) /\
  (forall options n,
     limit options = Some n -> n <> 0 ->
     Js.includes ("first: " ++ Js.numberToString n) (buildGraphQLQuery options)
     = true) /\
  (forall options n,
     schemaLimit options = Some n -> n <> 0 ->
     Js.includes ("first: " ++ Js.numberToString n) (buildSchemaQuery options)
     = true) /\
  (forall options n,
     offset options = Some n -> n <> 0 ->
     Js.includes ("skip: " ++ Js.numberToString n) (buildGraphQLQuery options)
     = true) /\
  Js.includes "schemas(first: 50) {"
    (buildSchemaQuery (mkSchemaQueryOptions None None)) = true /\
  Js.includes "attestations(first: 100) {" (buildGraphQLQuery noOptions) = true.
Proof.
  repeat match goal with |- _ /\ _ => split end.
  - intros r Hr. split.
    + unfold conditions, condition. cbn [recipient schema attester].
      rewrite (truthyString_nonempty r Hr). reflexivity.
    + unfold buildGraphQLQuery, attestationClauses, conditions, condition.
      cbn [recipient schema attester limit offset].
      rewrite (truthyString_nonempty r Hr). apply f_equal. cbn.
      rewrite !StringFacts.append_assoc. reflexivity.
  - reflexivity.
  - reflexivity.
  - reflexivity.
  - exact absent_filters_omitted.
  - intros options Hs Hr Ha. unfold conditions. rewrite Hs, Hr, Ha. reflexivity.
  - intros options Hc. unfold buildSchemaQuery, schemaClauses. rewrite Hc.
    cbn [condition whereClause]. unfold joinClauses. cbn [filter Js.truthyString].
    destruct (schemaLimit options) as [n |]; cbn; [| reflexivity].
    destruct (Js.truthyNumber n); reflexivity.
  - intros options Hl. unfold buildGraphQLQuery, attestationClauses.
    rewrite Hl. reflexivity.
  - intros options Hl. unfold buildSchemaQuery, schemaClauses.
    rewrite Hl. reflexivity.
  - intros options Ho. unfold buildGraphQLQuery, attestationClauses.
    rewrite (offsetClause_falsy _ Ho).
    exact (f_equal attestationQuery
             (joinClauses_drop_last
                [whereClause (conditions options);
                 limitClause "first: 100" (limit options)])).
  - intros r Hr. unfold buildGraphQLQuery, attestationClauses, conditions, condition.
    cbn [recipient schema attester limit offset].
    rewrite (truthyString_nonempty r Hr).
    apply StringFacts.includes_iff. unfold attestationQuery.
    exists (nl ++ "      query {" ++ nl ++ "        ")%string,
           (nl ++ attestationFields "        " ++ "        }" ++ nl ++
            "      }" ++ nl ++ "    ")%string.
    cbn. rewrite !StringFacts.append_assoc. reflexivity.
  - intros options c Hin. unfold buildGraphQLQuery.
    apply arguments_in_attestationQuery.
    apply (StringFacts.includes_trans c (whereClause (conditions options))).
    + unfold whereClause. destruct (conditions options) as [| c0 conds] eqn:E;
        [contradiction |].
      apply (StringFacts.includes_inside c "where: { " _ " }").
      apply join_includes. exact Hin.
    + apply clause_rendered; [left; reflexivity |].
      unfold whereClause. destruct (conditions options); [contradiction |].
      discriminate.
  - intros options Hl. unfold buildGraphQLQuery.
    apply arguments_in_attestationQuery, clause_rendered; [| discriminate].
    unfold attestationClauses. rewrite Hl. right. left. reflexivity.
  - intros options Hl. unfold buildSchemaQuery.
    apply arguments_in_schemaQuery, clause_rendered; [| discriminate].
    unfold schemaClauses. rewrite Hl. right. left. reflexivity.
  - intros options n Hl Hn. unfold buildGraphQLQuery.
    apply arguments_in_attestationQuery, clause_rendered; [| discriminate].
    unfold attestationClauses, limitClause, Js.truthyNumber. rewrite Hl.
    rewrite (proj2 (Z.eqb_neq n 0) Hn). right. left. reflexivity.
  - intros options n Hl Hn. unfold buildSchemaQuery.
    apply arguments_in_schemaQuery, clause_rendered; [| discriminate].
    unfold schemaClauses, limitClause, Js.truthyNumber. rewrite Hl.
    rewrite (proj2 (Z.eqb_neq n 0) Hn). right. left. reflexivity.
  - intros options n Ho Hn. unfold buildGraphQLQuery.
    apply arguments_in_attestationQuery, clause_rendered; [| discriminate].
    unfold attestationClauses, offsetClause, Js.truthyNumber. rewrite Ho.
    rewrite (proj2 (Z.eqb_neq n 0) Hn). right. right. left. reflexivity.
  - reflexivity.
  - reflexivity.
Qed.

Lemma query_builder_filters_and_defaults_witness :
  buildGraphQLQuery recipientAndLimit
  = attestationQuery
      ("where: { recipient: " ++ Js.quote ++
       "0xAAAAAAAAAAAAAAAAAAAAAAAAAAAAAAAAAAAAAAAA" ++ Js.quote ++ " }, first: 10").
Proof.
  apply (proj1 query_builder_filters_and_defaults sampleRecipient).
  discriminate.
Defined.

(** C10: a limit of 0 is treated as an absent limit: whatever the other
    options, the text of the query contains [first: 100], and it is the
    same text as the one built without a limit; with no filter the
    arguments are exactly [first: 100] and [first: 0] occurs nowhere.  An
    offset of 0 is treated as an absent offset: the query is the same text
    as the one built without an offset, and with no filter the word "skip"
    occurs nowhere in it. *)
Theorem zero_limit_and_offset_are_absent
        (s r a : option string) (l o : option Z) :
  buildGraphQLQuery (mkQueryOptions s r a (Some 0) o)
  = buildGraphQLQuery (mkQueryOptions s r a None o) /\
  limitClause "first: 100" (Some 0) = "first: 100" /\
  buildGraphQLQuery (mkQueryOptions s r a l (Some 0))
  = buildGraphQLQuery (mkQueryOptions s r a l None) /\
  offsetClause (Some 0) = "" /\
  buildGraphQLQuery (mkQueryOptions None None None (Some 0) (Some 0))
  = attestationQuery "first: 100" /\
  Js.includes "first: 0"
    (buildGraphQLQuery (mkQueryOptions None None None (Some 0) (Some 0))) = false /\
  Js.includes "skip"
    (buildGraphQLQuery (mkQueryOptions None None None (Some 0) (Some 0))) = false /\
  Js.includes "first: 100" (buildGraphQLQuery (mkQueryOptions s r a (Some 0) o))
  = true /\
  Js.includes "attestations(first: 100) {"
    (buildGraphQLQuery (mkQueryOptions None None None (Some 0) (Some 0))) = true /\
  (forall n, n <> 0 ->
     Js.includes ("first: " ++ Js.numberToString n)
       (buildGraphQLQuery (mkQueryOptions s r a (Some n) o)) = true) /\
  (forall n, n <> 0 ->
     Js.includes ("skip: " ++ Js.numberToString n)
       (buildGraphQLQuery (mkQueryOptions s r a l (Some n))) = true).
Proof.
  repeat match goal with |- _ /\ _ => split end; try reflexivity.
  - unfold buildGraphQLQuery.
    apply arguments_in_attestationQuery, clause_rendered; [| discriminate].
    right. left. reflexivity.
  - intros n Hn. unfold buildGraphQLQuery.
    apply arguments_in_attestationQuery, clause_rendered; [| discriminate].
    unfold attestationClauses, limitClause, Js.truthyNumber. cbn [limit].
    rewrite (proj2 (Z.eqb_neq n 0) Hn). right. left. reflexivity.
  - intros n Hn. unfold buildGraphQLQuery.
    apply arguments_in_attestationQuery, clause_rendered; [| discriminate].
    unfold attestationClauses, offsetClause, Js.truthyNumber. cbn [offset].
    rewrite (proj2 (Z.eqb_neq n 0) Hn). right. right. left. reflexivity.
Qed.

Lemma zero_limit_and_offset_are_absent_witness :
  Js.includes "first: 25"
    (buildGraphQLQuery (mkQueryOptions None None None (Some 25) (Some 0))) = true.
Proof.
  apply (proj1 (proj2 (proj2 (proj2 (proj2 (proj2 (proj2 (proj2 (proj2 (proj2
           (zero_limit_and_offset_are_absent None None None None (Some 0))))))))))) 25).
  discriminate.
Defined.

End QueryFacts.

(* ------------------------------------------------------------------ *)
(** ** Further properties of the verification engine                    *)
(* ------------------------------------------------------------------ *)

Module VerifyMore.
Import Verify Samples VerifyFacts.

#[local] Opaque Query.uidQuery Js.toISOString.

(** With dates that can be rendered the checks run to the end, and the
    flags of the result are decided check by check. *)
Lemma runChecks_complete (w : World) (uid : string) (checks : Checks)
      (a : Attestation) :
  revocationTime a <= maxSeconds ->
  0 <= dateNow w <= Js.maxTimeValue ->
  exists s,
    runChecks w uid checks a (found uid a) = (inr tt, s) /\
    isRevoked (result s) = revokedHit checks a /\
    isExpired (result s) = expiredHit w checks a /\
    isValid (result s) =
      negb (revokedHit checks a) && negb (expiredHit w checks a) &&
      negb (mismatchHit w uid) && schemaValid w a /\
    filter isRegistryCall (trace s) =
      [RegistryGetAttestation uid; RegistryGetSchema (schemaId (attSchema a))].
Proof.
  intros Hmax Hnow.
  local_checks Hmax Hnow;
    next_check; split_check; next_check; split_check; next_check;
    eexists; (split; [reflexivity |]);
    unfold revokedHit, expiredHit, mismatchHit, schemaValid;
    repeat match goal with
           | H : ?b = _ |- context [?b] => rewrite H
           end;
    cbn; repeat split.
Qed.

(** The verdict: once the attestation is found and the dates can be
    rendered, [verify] returns a result whose [isValid] is the conjunction
    of the four checks (not revoked, not expired, no on-chain mismatch,
    schema valid) and whose flags are the findings of the two local
    checks. *)
Theorem verdict_is_conjunction_of_checks
        (w : World) (uid : string) (checks : Checks)
        (a : Attestation) (rest : list Attestation) :
  indexerReply w [uid] = inr (a :: rest) ->
  revocationTime a <= maxSeconds ->
  0 <= dateNow w <= Js.maxTimeValue ->
  exists r,
    fst (verify w uid checks) = inr r /\
    isRevoked r = revokedHit checks a /\
    isExpired r = expiredHit w checks a /\
    isValid r =
      negb (revokedHit checks a) && negb (expiredHit w checks a) &&
      negb (mismatchHit w uid) && schemaValid w a.
Proof.
  intros Hfound Hmax Hnow.
  destruct (runChecks_complete w uid checks a Hmax Hnow)
    as [s [Hrun [Hr [He [Hv _]]]]].
  rewrite (verify_found w uid checks a rest Hfound), Hrun.
  exists (result s). repeat split; assumption.
Qed.

Lemma verdict_is_conjunction_of_checks_witness :
  exists r,
    fst (verify (world (indexerReturns [sampleAttestation 1700000000 0])
                       onChainFound schemaFound)
                sampleUid bothChecks) = inr r /\
    isRevoked r = true /\ isExpired r = false /\ isValid r = false.
Proof.
  destruct (verdict_is_conjunction_of_checks
              (world (indexerReturns [sampleAttestation 1700000000 0])
                     onChainFound schemaFound)
              sampleUid bothChecks (sampleAttestation 1700000000 0) [] eq_refl)
    as [r [Hr [H1 [H2 H3]]]].
  - unfold maxSeconds. simpl. lia.
  - unfold Js.maxTimeValue. simpl. lia.
  - exists r. repeat split; assumption.
Defined.

(** The registry is consulted exactly twice for a found attestation: one
    on-chain lookup of the requested UID, then one schema lookup of the
    schema the indexer reported, whatever the on-chain lookup gave. *)
Theorem registry_consulted_twice_in_order
        (w : World) (uid : string) (checks : Checks)
        (a : Attestation) (rest : list Attestation) :
  indexerReply w [uid] = inr (a :: rest) ->
  revocationTime a <= maxSeconds ->
  0 <= dateNow w <= Js.maxTimeValue ->
  filter isRegistryCall (snd (verify w uid checks)) =
  [RegistryGetAttestation uid; RegistryGetSchema (schemaId (attSchema a))].
Proof.
  intros Hfound Hmax Hnow.
  destruct (runChecks_complete w uid checks a Hmax Hnow)
    as [s [Hrun [_ [_ [_ Htrace]]]]].
  rewrite (verify_found w uid checks a rest Hfound), Hrun. exact Htrace.
Qed.

Lemma registry_consulted_twice_in_order_witness :
  filter isRegistryCall
    (snd (verify (world (indexerReturns [sampleAttestation 0 0])
                        (Rejects "network down") (Rejects "no such schema"))
                 sampleUid bothChecks)) =
  [RegistryGetAttestation sampleUid;
   RegistryGetSchema (schemaId sampleSchema)].
Proof.
  apply (registry_consulted_twice_in_order
           (world (indexerReturns [sampleAttestation 0 0])
                  (Rejects "network down") (Rejects "no such schema"))
           sampleUid bothChecks (sampleAttestation 0 0) [] eq_refl).
  - unfold maxSeconds. simpl. lia.
  - unfold Js.maxTimeValue. simpl. lia.
Defined.

(** Every path through the checks, the failing ones included. *)
Ltac every_path :=
  unfold runChecks, bind; repeat (next_check; split_check).

Ltac exists_result :=
  match goal with
  | |- exists r, _ => eexists
  end.

Ltac from_guard :=
  repeat match goal with
         | H : _ && _ = true |- _ => apply andb_prop in H; destruct H
         end.

Lemma verify_flags (w : World) (uid' : string) (checks : Checks) :
  exists r,
    fst (verify w uid' checks) = inr r /\
    uid r = uid' /\
    exists_ r = match indexerReply w [uid'] with
                | inr (_ :: _) => true
                | _ => false
                end /\
    attestation r = match indexerReply w [uid'] with
                    | inr (a :: _) => Some a
                    | _ => None
                    end /\
    (isRevoked r = true -> isValid r = false /\ checkRevocation checks = true) /\
    (isExpired r = true -> isValid r = false /\ checkExpiration checks = true) /\
    (exists_ r = false -> isValid r = false).
Proof.
  destruct (indexerReply w [uid']) as [e | [| a rest]] eqn:H.
  - rewrite (verify_indexer_failure w uid' checks e H). eexists.
    split; [reflexivity |]. cbn. repeat split; discriminate.
  - rewrite (verify_empty_reply w uid' checks H). eexists.
    split; [reflexivity |]. cbn. repeat split; discriminate.
  - rewrite (verify_found w uid' checks a rest H).
    every_path; eexists; (split; [reflexivity |]); cbn; from_guard;
      repeat split; solve [reflexivity | assumption | discriminate].
Qed.

(** The result names the requested UID; it exists exactly when the indexer
    returned at least one attestation, and the attestation attached to it
    is the first one returned, the others are ignored. *)
Theorem result_attaches_first_attestation
        (w : World) (uid' : string) (checks : Checks) :
  exists r,
    fst (verify w uid' checks) = inr r /\
    uid r = uid' /\
    (exists_ r = true <->
     exists a rest, indexerReply w [uid'] = inr (a :: rest)) /\
    (forall a rest, indexerReply w [uid'] = inr (a :: rest) ->
                    attestation r = Some a) /\
    (exists_ r = false -> attestation r = None).
Proof.
  destruct (verify_flags w uid' checks) as [r [Hr [Hu [He [Ha _]]]]].
  exists r. split; [exact Hr | split; [exact Hu |]].
  destruct (indexerReply w [uid']) as [e | [| a rest]].
  - rewrite He, Ha. repeat split; try discriminate.
    intros [a [rest Habs]]. discriminate.
  - rewrite He, Ha. repeat split; try discriminate.
    intros [a [rest Habs]]. discriminate.
  - rewrite He, Ha. repeat split; try discriminate.
    + intros _. exists a, rest. reflexivity.
    + intros a' rest' Heq. injection Heq as -> _. reflexivity.
Qed.

Lemma result_attaches_first_attestation_witness :
  exists r,
    fst (verify (world (indexerReturns [sampleAttestation 0 0;
                                        sampleAttestation 1700000000 0])
                       onChainFound schemaFound)
                sampleUid bothChecks) = inr r /\
    attestation r = Some (sampleAttestation 0 0).
Proof.
  destruct (result_attaches_first_attestation
              (world (indexerReturns [sampleAttestation 0 0;
                                      sampleAttestation 1700000000 0])
                     onChainFound schemaFound)
              sampleUid bothChecks) as [r [Hr [_ [_ [Ha _]]]]].
  exists r. split; [exact Hr |].
  exact (Ha (sampleAttestation 0 0) [sampleAttestation 1700000000 0] eq_refl).
Defined.

(** A flag that is raised invalidates the result: a result that does not
    exist, is revoked or is expired is never valid; and a flag is raised
    only by a check that was asked for. *)
Theorem raised_flag_invalidates
        (w : World) (uid' : string) (checks : Checks) :
  exists r,
    fst (verify w uid' checks) = inr r /\
    (exists_ r = false -> isValid r = false) /\
    (isRevoked r = true -> isValid r = false) /\
    (isExpired r = true -> isValid r = false) /\
    (checkRevocation checks = false -> isRevoked r = false) /\
    (checkExpiration checks = false -> isExpired r = false).
Proof.
  destruct (verify_flags w uid' checks) as [r [Hr [_ [_ [_ [Hrev [Hexp Hex]]]]]]].
  exists r. repeat split; try assumption.
  - intros H. exact (proj1 (Hrev H)).
  - intros H. exact (proj1 (Hexp H)).
  - intros Hoff. destruct (isRevoked r); [| reflexivity].
    destruct (Hrev eq_refl) as [_ Hon]. rewrite Hon in Hoff. discriminate.
  - intros Hoff. destruct (isExpired r); [| reflexivity].
    destruct (Hexp eq_refl) as [_ Hon]. rewrite Hon in Hoff. discriminate.
Qed.

Lemma raised_flag_invalidates_witness :
  exists r,
    fst (verify (world (indexerReturns [sampleAttestation 1700000000 1700000000])
                       onChainFound schemaFound)
                sampleUid (mkChecks false false)) = inr r /\
    isRevoked r = false /\ isExpired r = false.
Proof.
  destruct (raised_flag_invalidates
              (world (indexerReturns [sampleAttestation 1700000000 1700000000])
                     onChainFound schemaFound)
              sampleUid (mkChecks false false))
    as [r [Hr [_ [_ [_ [Hrev Hexp]]]]]].
  exists r. split; [exact Hr |]. split; [exact (Hrev eq_refl) | exact (Hexp eq_refl)].
Defined.

(** Revocation is reported whatever else happens: a found attestation with
    a positive revocation time, verified with [checkRevocation], is revoked
    and invalid and carries the dated revocation issue, regardless of its
    expiration, of the clock and of the registry. *)
Theorem revoked_whatever_the_expiration
        (w : World) (uid' : string) (checks : Checks)
        (a : Attestation) (rest : list Attestation) :
  indexerReply w [uid'] = inr (a :: rest) ->
  checkRevocation checks = true ->
  0 < revocationTime a <= maxSeconds ->
  exists r date,
    fst (verify w uid' checks) = inr r /\
    isRevoked r = true /\
    isValid r = false /\
    Js.toISOString (revocationTime a * 1000) = Some date /\
    In ("Attestation was revoked on " ++ date) (issues r).
Proof.
  intros Hfound Hcheck [Hpos Hmax].
  rewrite (verify_found w uid' checks a rest Hfound).
  unfold runChecks, bind. next_check.
  rewrite Hcheck, (proj2 (Z.ltb_lt 0 (revocationTime a)) Hpos). cbn [andb].
  destruct (Js.toISOString (revocationTime a * 1000)) as [date |] eqn:Hdate.
  - repeat (next_check; split_check);
      exists_result; exists date; (split; [reflexivity |]); cbn;
      repeat split; tauto.
  - exfalso. apply (revoked_renders a Hmax); [apply Z.ltb_lt; exact Hpos | exact Hdate].
Qed.

Lemma revoked_whatever_the_expiration_witness :
  exists r date,
    fst (verify (world (indexerReturns [sampleAttestation 1700000000 1])
                       (Rejects "network down") (Rejects "no such schema"))
                sampleUid bothChecks) = inr r /\
    isRevoked r = true /\
    isValid r = false /\
    Js.toISOString (1700000000 * 1000) = Some date /\
    In ("Attestation was revoked on " ++ date) (issues r).
Proof.
  apply (revoked_whatever_the_expiration
           (world (indexerReturns [sampleAttestation 1700000000 1])
                  (Rejects "network down") (Rejects "no such schema"))
           sampleUid bothChecks (sampleAttestation 1700000000 1) []
           eq_refl eq_refl).
  unfold maxSeconds. simpl. lia.
Defined.

(** The checks only ever downgrade validity: started from any result that
    is already invalid, they end, normally or by a thrown error, in a
    result that is still invalid. *)
Theorem checks_never_restore_validity
        (w : World) (uid' : string) (checks : Checks) (a : Attestation)
        (s : State) :
  isValid (result s) = false ->
  isValid (result (snd (runChecks w uid' checks a s))) = false.
Proof.
  intros Hinvalid. every_path; cbn;
    repeat match goal with
           | |- context [match ?l with [] => _ | _ :: _ => _ end] => destruct l
           end;
    cbn; solve [reflexivity | assumption].
Qed.

Lemma checks_never_restore_validity_witness :
  isValid (result (snd (runChecks
     (world (indexerReturns [sampleAttestation 0 0]) onChainFound schemaFound)
     sampleUid bothChecks (sampleAttestation 0 0)
     (mkState (setValid false (initialResult sampleUid)) [])))) = false.
Proof.
  apply (checks_never_restore_validity
           (world (indexerReturns [sampleAttestation 0 0]) onChainFound schemaFound)
           sampleUid bothChecks (sampleAttestation 0 0)
           (mkState (setValid false (initialResult sampleUid)) [])).
  reflexivity.
Defined.

(** A failure of the indexer becomes the single issue of an invalid,
    non-existing result, and the registry is not consulted: a response
    whose status is not a success reports the status text, and a response
    whose [errors] field is truthy reports the errors even when it carries
    data as well.  A successful response whose [errors] field is missing
    or falsy is read for its data (no data is no attestation). *)
Theorem indexer_failure_is_reported
        (w : World) (uid' : string) (checks : Checks) (response : Response) :
  fetch w (Query.uidQuery [uid']) = Resolves response ->
  (ok response = false ->
   verify w uid' checks =
   (inr (mkResult uid' false false false false None
           ["Verification failed: GraphQL request failed: " ++ statusText response]),
    [IndexerFetch (Query.uidQuery [uid']);
     LogError "Failed to get attestations by UID"
              ("GraphQL request failed: " ++ statusText response)])) /\
  (forall b errors,
     ok response = true ->
     body response = Resolves b ->
     bodyErrors b = Some errors ->
     verify w uid' checks =
     (inr (mkResult uid' false false false false None
             ["Verification failed: GraphQL errors: " ++ errors]),
      [IndexerFetch (Query.uidQuery [uid']);
       LogError "Failed to get attestations by UID"
                ("GraphQL errors: " ++ errors)])) /\
  (forall b,
     ok response = true ->
     body response = Resolves b ->
     bodyErrors b = None ->
     indexerReply w [uid'] =
     inr (match bodyData b with Some attestations => attestations | None => [] end)).
Proof.
  intros Hfetch. split; [| split].
  - intros Hok.
    apply (verify_indexer_failure w uid' checks
             ("GraphQL request failed: " ++ statusText response)).
    unfold indexerReply, readResponse. rewrite Hfetch, Hok. reflexivity.
  - intros b errors Hok Hbody Herrors.
    apply (verify_indexer_failure w uid' checks ("GraphQL errors: " ++ errors)).
    unfold indexerReply, readResponse. rewrite Hfetch, Hok, Hbody, Herrors.
    reflexivity.
  - intros b Hok Hbody Herrors.
    unfold indexerReply, readResponse. rewrite Hfetch, Hok, Hbody, Herrors.
    destruct (bodyData b); reflexivity.
Qed.

Lemma indexer_failure_is_reported_witness :
  fst (verify (world (Resolves (mkResponse false "Bad Gateway" (Rejects "no body")))
                     onChainFound schemaFound)
              sampleUid bothChecks)
  = inr (mkResult sampleUid false false false false None
           ["Verification failed: GraphQL request failed: Bad Gateway"]) /\
  fst (verify (world (Resolves (mkResponse true "OK"
                        (Resolves (mkBody (Some [sampleAttestation 0 0])
                                          (Some "[{message:boom}]")))))
                     onChainFound schemaFound)
              sampleUid bothChecks)
  = inr (mkResult sampleUid false false false false None
           ["Verification failed: GraphQL errors: [{message:boom}]"]).
Proof.
  split.
  - exact (f_equal fst
      (proj1 (indexer_failure_is_reported
                (world (Resolves (mkResponse false "Bad Gateway" (Rejects "no body")))
                       onChainFound schemaFound)
                sampleUid bothChecks
                (mkResponse false "Bad Gateway" (Rejects "no body")) eq_refl)
             eq_refl)).
  - exact (f_equal fst
      (proj1 (proj2 (indexer_failure_is_reported
                (world (Resolves (mkResponse true "OK"
                          (Resolves (mkBody (Some [sampleAttestation 0 0])
                                            (Some "[{message:boom}]")))))
                       onChainFound schemaFound)
                sampleUid bothChecks
                (mkResponse true "OK"
                   (Resolves (mkBody (Some [sampleAttestation 0 0])
                                     (Some "[{message:boom}]")))) eq_refl))
             (mkBody (Some [sampleAttestation 0 0]) (Some "[{message:boom}]"))
             "[{message:boom}]" eq_refl eq_refl eq_refl)).
Defined.

End VerifyMore.

(* ------------------------------------------------------------------ *)
(** ** Properties of the regular expressions                            *)
(* ------------------------------------------------------------------ *)

Module RegexFacts.
Import Regex.

Lemma allChars_app (class : ascii -> bool) (a b : string) :
  allChars class (a ++ b) = allChars class a && allChars class b.
Proof.
  induction a as [| c a IH]; cbn; [reflexivity |].
  rewrite IH. apply andb_assoc.
Qed.

Lemma allChars_weaken (p q : ascii -> bool) (s : string) :
  (forall c, p c = true -> q c = true) ->
  allChars p s = true -> allChars q s = true.
Proof.
  intros Hpq. induction s as [| c s IH]; cbn; [reflexivity |].
  intros H. apply andb_prop in H. destruct H as [Hc Hs].
  rewrite (Hpq c Hc), (IH Hs). reflexivity.
Qed.

(** The backtracking step of the star. *)
Lemma matchHere_star (class : ascii -> bool) (r : Pattern) (s : string) :
  matchHere (Star class :: r) s =
  match
    match s with
    | String c s' =>
        if class c then option_map S (matchHere (Star class :: r) s') else None
    | EmptyString => None
    end
  with
  | Some n => Some n
  | None => matchHere r s
  end.
Proof. destruct s; reflexivity. Qed.

(** A text in which the pattern matches nowhere is left as it is. *)
Lemma replaceAll_unchanged (r : Pattern) (f : string -> string) (s : string) :
  (forall a b, s = (a ++ b)%string -> matchHere r b = None) ->
  replaceAll r f s = s.
Proof.
  unfold replaceAll. induction s as [| c s IH]; intros H.
  - cbn. rewrite (H EmptyString EmptyString eq_refl). reflexivity.
  - cbn [replaceFrom]. rewrite (H EmptyString (String c s) eq_refl).
    rewrite IH; [reflexivity |].
    intros a b Hab. apply (H (String c a) b). cbn. rewrite Hab. reflexivity.
Qed.

(** A pattern whose first character occurs nowhere in the text matches
    nowhere. *)
Lemma replaceAll_without_first (q : ascii -> bool) (r : Pattern)
      (f : string -> string) (s : string) :
  allChars (fun c => negb (q c)) s = true ->
  replaceAll (One q :: r) f s = s.
Proof.
  intros Hs. apply replaceAll_unchanged. intros a b Hab. subst s.
  rewrite allChars_app in Hs. apply andb_prop in Hs. destruct Hs as [_ Hb].
  destruct b as [| c b]; [reflexivity |].
  cbn in Hb |- *. apply andb_prop in Hb. destruct Hb as [Hc _].
  destruct (q c); [discriminate Hc | reflexivity].
Qed.

Lemma matchHere_one (class : ascii -> bool) (r : Pattern) (c : ascii)
      (s : string) :
  matchHere (One class :: r) (String c s) =
  if class c then option_map S (matchHere r s) else None.
Proof. reflexivity. Qed.

(** One more character for a star that already matches. *)
Lemma matchHere_star_more (class : ascii -> bool) (r : Pattern)
      (c : ascii) (s : string) (n : nat) :
  class c = true ->
  matchHere (Star class :: r) s = Some n ->
  matchHere (Star class :: r) (String c s) = Some (S n).
Proof.
  intros Hc Hs. rewrite matchHere_star, Hc, Hs. reflexivity.
Qed.

(** A run of [n] characters of one class. *)
Lemma run_matches (class : ascii -> bool) (n : nat) (k : string) :
  allChars class k = true -> String.length k = n ->
  matchHere (repeat (One class) n) k = Some n.
Proof.
  revert k. induction n as [| n IH]; intros [| c k] Hk Hlen;
    try discriminate Hlen.
  - reflexivity.
  - cbn in Hk. apply andb_prop in Hk. destruct Hk as [Hc Hk].
    injection Hlen as Hlen. cbn [repeat matchHere].
    rewrite Hc, (IH k Hk Hlen). reflexivity.
Qed.

Lemma run_too_short (class : ascii -> bool) (n : nat) (s : string) :
  (String.length s < n)%nat ->
  matchHere (repeat (One class) n) s = None.
Proof.
  revert s. induction n as [| n IH]; intros [| c s] Hlen; cbn in Hlen;
    try lia.
  - reflexivity.
  - cbn [repeat matchHere]. destruct (class c); [| reflexivity].
    rewrite (IH s); [reflexivity | lia].
Qed.

Lemma star_run_too_short (p class : ascii -> bool) (n : nat) (s : string) :
  (String.length s < n)%nat ->
  matchHere (Star p :: repeat (One class) n) s = None.
Proof.
  induction s as [| c s IH]; intros Hlen; rewrite matchHere_star.
  - apply run_too_short. exact Hlen.
  - cbn in Hlen. rewrite IH by lia.
    destruct (p c); cbn [option_map]; apply run_too_short; cbn; lia.
Qed.

(** A greedy star in front of a run that ends the text gives the text up
    to its end. *)
Lemma star_then_final_run (p class : ascii -> bool) (n : nat) (y k : string) :
  (forall c, class c = true -> p c = true) ->
  allChars p y = true ->
  allChars class k = true -> String.length k = S n ->
  matchHere (Star p :: repeat (One class) (S n)) (y ++ k) =
  Some (String.length y + S n)%nat.
Proof.
  intros Hsub Hy Hk Hlen. induction y as [| c y IH].
  - cbn [append String.length Nat.add].
    destruct k as [| c k]; [discriminate Hlen |].
    rewrite matchHere_star.
    cbn [allChars] in Hk. pose proof Hk as Hk'.
    apply andb_prop in Hk'. destruct Hk' as [Hc _].
    rewrite (Hsub c Hc), star_run_too_short by (cbn in Hlen; lia).
    cbn [option_map]. apply run_matches; assumption.
  - cbn in Hy. apply andb_prop in Hy. destruct Hy as [Hc Hy].
    cbn [append String.length Nat.add].
    apply matchHere_star_more; [exact Hc | exact (IH Hy)].
Qed.

Lemma run_matches_before (class : ascii -> bool) (n : nat) (k t : string) :
  allChars class k = true -> String.length k = n ->
  matchHere (repeat (One class) n) (k ++ t) = Some n.
Proof.
  revert k. induction n as [| n IH]; intros [| c k] Hk Hlen;
    try discriminate Hlen.
  - reflexivity.
  - cbn in Hk. apply andb_prop in Hk. destruct Hk as [Hc Hk].
    injection Hlen as Hlen. cbn [repeat append]. rewrite matchHere_one.
    rewrite Hc, (IH k Hk Hlen). reflexivity.
Qed.

(** A prefix in which no match starts is copied. *)
Lemma replaceFrom_copies (r : Pattern) (f : string -> string) (a b : string) :
  (forall a1 a2, a = (a1 ++ a2)%string -> a2 <> EmptyString ->
                 matchHere r (a2 ++ b) = None) ->
  replaceFrom r f 0 (a ++ b) = (a ++ replaceFrom r f 0 b)%string.
Proof.
  induction a as [| c a IH]; intros H; [reflexivity |].
  assert (H0 : matchHere r (String c a ++ b) = None)
    by (apply (H EmptyString (String c a) eq_refl); discriminate).
  cbn [append] in H0 |- *. cbn [replaceFrom]. rewrite H0.
  rewrite IH; [reflexivity |].
  intros a1 a2 Ha Hne. apply (H (String c a1) a2); [| exact Hne].
  cbn. rewrite Ha. reflexivity.
Qed.

(** The characters of a match are skipped. *)
Lemma replaceFrom_skips (r : Pattern) (f : string -> string) (a t : string) :
  replaceFrom r f (String.length a) (a ++ t) = replaceFrom r f 0 t.
Proof.
  induction a as [| c a IH]; [reflexivity |].
  cbn [String.length append replaceFrom]. exact IH.
Qed.

(** A match at the start of the text is replaced and the search resumes
    behind it. *)
Lemma replaceFrom_match (r : Pattern) (f : string -> string)
      (c : ascii) (a t : string) :
  matchHere r (String c a ++ t) = Some (String.length (String c a)) ->
  replaceFrom r f 0 (String c a ++ t) =
  (f (String c a) ++ replaceFrom r f 0 t)%string.
Proof.
  intros H. cbn [append] in H |- *. cbn [replaceFrom]. rewrite H.
  cbn [String.length].
  change (String.substring 0 (S (String.length a)) (String c (a ++ t)))
    with (String.substring 0 (String.length (String c a)) (String c a ++ t)).
  rewrite StringFacts.substring_prefix, replaceFrom_skips. reflexivity.
Qed.

(** Where a literal matches under the [i] flag, the lower-cased text
    begins with the lower-cased literal. *)
Lemma literal_needs_prefix (lit : string) (r : Pattern) (t : string) (n : nat) :
  matchHere (literal ignoringCase lit ++ r)%list t = Some n ->
  String.prefix (Js.toLowerCase lit) (Js.toLowerCase t) = true.
Proof.
  revert t n. induction lit as [| x lit IH]; intros t n H.
  - apply StringFacts.prefix_nil.
  - destruct t as [| c t]; [discriminate H |].
    cbn [literal app] in H. rewrite matchHere_one in H.
    cbn [Js.toLowerCase]. rewrite StringFacts.prefix_cons.
    change (ignoringCase x c)
      with (Ascii.eqb (Js.lowerChar x) (Js.lowerChar c)) in H.
    destruct (Ascii.eqb (Js.lowerChar x) (Js.lowerChar c)); [| discriminate H].
    destruct (matchHere (literal ignoringCase lit ++ r)%list t) as [m |] eqn:E;
      [| discriminate H].
    exact (IH t m E).
Qed.

(** A pattern that begins with a literal leaves a text alone that does not
    contain the literal, in any letter case. *)
Lemma replaceAll_without_literal (lit : string) (r : Pattern)
      (f : string -> string) (s : string) :
  Js.includes (Js.toLowerCase lit) (Js.toLowerCase s) = false ->
  replaceAll (literal ignoringCase lit ++ r)%list f s = s.
Proof.
  intros H. apply replaceAll_unchanged. intros a b Hab. subst s.
  rewrite StringFacts.toLowerCase_append in H.
  apply StringFacts.includes_suffix, StringFacts.includes_prefix in H.
  destruct (matchHere (literal ignoringCase lit ++ r)%list b) as [n |] eqn:E;
    [| reflexivity].
  rewrite (literal_needs_prefix lit r b n E) in H. discriminate H.
Qed.

(** A literal under the [i] flag matches its case variants. *)
Lemma literal_matches (lit l : string) (r : Pattern) (s : string) :
  Js.toLowerCase l = Js.toLowerCase lit ->
  matchHere (literal ignoringCase lit ++ r)%list (l ++ s) =
  option_map (Nat.add (String.length lit)) (matchHere r s).
Proof.
  revert l. induction lit as [| x lit IH]; intros [| c l] H;
    try discriminate H.
  - cbn. destruct (matchHere r s); reflexivity.
  - cbn in H. injection H as Hc Hl.
    cbn [literal app matchHere append]. unfold ignoringCase at 1.
    rewrite Hc, Ascii.eqb_refl, (IH l Hl).
    destruct (matchHere r s); reflexivity.
Qed.

Lemma substring_all (s : string) : String.substring 0 (String.length s) s = s.
Proof. induction s as [| c s IH]; cbn; [| rewrite IH]; reflexivity. Qed.

Lemma replaceFrom_skip_all (r : Pattern) (f : string -> string) (s : string) :
  matchHere r EmptyString = None ->
  replaceFrom r f (String.length s) s = EmptyString.
Proof.
  intros Hempty. induction s as [| d s IH].
  - cbn. rewrite Hempty. reflexivity.
  - cbn [String.length replaceFrom]. exact IH.
Qed.

(** A text that the pattern matches from its start to its end is replaced
    as a whole. *)
Lemma replaceAll_whole (r : Pattern) (f : string -> string) (s : string) :
  matchHere r EmptyString = None ->
  s <> EmptyString ->
  matchHere r s = Some (String.length s) ->
  replaceAll r f s = f s.
Proof.
  intros Hempty Hne Hs. unfold replaceAll.
  destruct s as [| c s]; [contradiction |].
  cbn [replaceFrom]. rewrite Hs. cbn [String.length].
  change (String.substring 0 (S (String.length s)) (String c s))
    with (String.substring 0 (String.length (String c s)) (String c s)).
  rewrite substring_all, (replaceFrom_skip_all r f s Hempty).
  apply StringFacts.append_nil_r.
Qed.

Lemma allChars_toLowerCase (class : ascii -> bool) (s : string) :
  allChars class (Js.toLowerCase s) =
  allChars (fun c => class (Js.lowerChar c)) s.
Proof. induction s as [| c s IH]; cbn; [| rewrite IH]; reflexivity. Qed.

(** The characters of a prefix are characters of the text. *)
Lemma prefix_allChars (class : ascii -> bool) (p s : string) :
  String.prefix p s = true -> allChars class s = true ->
  allChars class p = true.
Proof.
  revert s. induction p as [| x p IH]; intros [| y s] Hp Hs;
    try reflexivity; try discriminate Hp.
  rewrite StringFacts.prefix_cons in Hp. apply andb_prop in Hp.
  destruct Hp as [Hxy Hp]. apply Ascii.eqb_eq in Hxy. subst y.
  cbn in Hs |- *. apply andb_prop in Hs. destruct Hs as [Hx Hs].
  rewrite Hx, (IH s Hp Hs). reflexivity.
Qed.

(** A word with a character that the text lacks does not occur in it. *)
Lemma includes_absent (class : ascii -> bool) (p s : string) :
  allChars class s = true -> allChars class p = false ->
  Js.includes p s = false.
Proof.
  intros Hs Hp. induction s as [| c s IH]; rewrite StringFacts.includes_unfold.
  - destruct (String.prefix p "") eqn:E; [| reflexivity].
    rewrite (prefix_allChars class p "" E Hs) in Hp. discriminate Hp.
  - destruct (String.prefix p (String c s)) eqn:E.
    + rewrite (prefix_allChars class p _ E Hs) in Hp. discriminate Hp.
    + cbn in Hs. apply andb_prop in Hs. destruct Hs as [_ Hs].
      exact (IH Hs).
Qed.

End RegexFacts.

(* ------------------------------------------------------------------ *)
(** ** Properties of the logger                                         *)
(* ------------------------------------------------------------------ *)

Module LoggerFacts.
Import Regex Logger RegexFacts.

(** A fact about every character, by running through the 256 of them. *)
Ltac every_char c :=
  destruct c as [[] [] [] [] [] [] [] []]; vm_compute; intros;
  first [reflexivity | discriminate].

Lemma hex_not_p (c : ascii) : hexDigit c = true -> ignoringCase "p" c = false.
Proof. every_char c. Qed.

Lemma hex_not_m (c : ascii) : hexDigit c = true -> ignoringCase "m" c = false.
Proof. every_char c. Qed.

Lemma hex_not_k (c : ascii) : hexDigit c = true -> ignoringCase "k" c = false.
Proof. every_char c. Qed.

Lemma hex_not_y (c : ascii) : hexDigit c = true -> ignoringCase "y" c = false.
Proof. every_char c. Qed.

Lemma hex_not_x (c : ascii) : hexDigit c = true -> exactly "x" c = false.
Proof. every_char c. Qed.

Lemma hex_is_dot (c : ascii) : hexDigit c = true -> dot c = true.
Proof. every_char c. Qed.

Lemma privateKeyPattern_first :
  privateKeyPattern = One (ignoringCase "p") :: tl privateKeyPattern.
Proof. reflexivity. Qed.

Lemma mnemonicPattern_first :
  mnemonicPattern = One (ignoringCase "m") :: tl mnemonicPattern.
Proof. reflexivity. Qed.

Lemma addressPattern_first :
  addressPattern =
  One (exactly "0") :: One (exactly "x") :: repeat (One hexDigit) 40.
Proof. reflexivity. Qed.

(** The address pattern matches nowhere in hexadecimal text: there is no
    [x] in it. *)
Lemma address_not_in_hex (b : string) :
  allChars hexDigit b = true -> matchHere addressPattern b = None.
Proof.
  rewrite addressPattern_first. destruct b as [| c [| c2 b]]; intros H.
  - reflexivity.
  - cbn [matchHere]. destruct (exactly "0" c); reflexivity.
  - cbn [allChars] in H. apply andb_prop in H. destruct H as [_ H].
    apply andb_prop in H. destruct H as [H2 _].
    cbn [matchHere]. rewrite (hex_not_x c2 H2).
    destruct (exactly "0" c); reflexivity.
Qed.

(** Hexadecimal text without a label is displayed as it is, whatever its
    length: none of the three patterns matches in it.  In particular a bare
    private key of 64 hexadecimal characters is not redacted. *)
Theorem hexadecimal_text_is_not_redacted (s : string) :
  allChars hexDigit s = true -> redactSensitive s = s.
Proof.
  intros H. unfold redactSensitive.
  rewrite privateKeyPattern_first, replaceAll_without_first.
  - rewrite mnemonicPattern_first, replaceAll_without_first.
    + apply replaceAll_unchanged. intros a b Hab. subst s.
      rewrite allChars_app in H. apply andb_prop in H. destruct H as [_ Hb].
      exact (address_not_in_hex b Hb).
    + apply (allChars_weaken hexDigit); [| exact H].
      intros c Hc. rewrite (hex_not_m c Hc). reflexivity.
  - apply (allChars_weaken hexDigit); [| exact H].
    intros c Hc. rewrite (hex_not_p c Hc). reflexivity.
Qed.

(** *** Labelled private keys *)

Lemma dot_lowerChar (c : ascii) : dot (Js.lowerChar c) = dot c.
Proof. every_char c. Qed.

Lemma allChars_dot_lower (s : string) :
  allChars dot (Js.toLowerCase s) = allChars dot s.
Proof.
  induction s as [| c s IH]; cbn; [reflexivity |].
  rewrite dot_lowerChar, IH. reflexivity.
Qed.

(** What follows the first star of the private-key pattern. *)
Local Abbreviation keyTail :=
  (literal ignoringCase "key" ++ Star dot :: repeat (One hexDigit) 64)%list.

Lemma keyTail_first :
  keyTail =
  One (ignoringCase "k") :: One (ignoringCase "e") :: One (ignoringCase "y")
    :: Star dot :: repeat (One hexDigit) 64.
Proof. reflexivity. Qed.

Lemma privateKeyPattern_shape :
  privateKeyPattern = (literal ignoringCase "private" ++ Star dot :: keyTail)%list.
Proof. reflexivity. Qed.

(** The word [key] does not start in hexadecimal text. *)
Lemma keyTail_not_in_hex (t : string) :
  allChars hexDigit t = true -> matchHere (Star dot :: keyTail) t = None.
Proof.
  induction t as [| c t IH]; intros Ht; rewrite matchHere_star.
  - reflexivity.
  - cbn in Ht. apply andb_prop in Ht. destruct Ht as [Hc Ht].
    rewrite (IH Ht), keyTail_first. cbn [matchHere].
    rewrite (hex_not_k c Hc). destruct (dot c); reflexivity.
Qed.

Section LabelledKey.

Variable k : string.
Hypothesis k_hex : allChars hexDigit k = true.
Hypothesis k_length : String.length k = 64%nat.

Lemma final_star_reaches_key (y : string) :
  allChars dot y = true ->
  matchHere (Star dot :: repeat (One hexDigit) 64) (y ++ k) =
  Some (String.length y + 64)%nat.
Proof.
  intros Hy.
  exact (star_then_final_run dot hexDigit 63 y k hex_is_dot Hy k_hex k_length).
Qed.

(** Whatever the first star gives up, a match ends where the key ends. *)
Lemma match_ends_with_key (v : string) (n : nat) :
  allChars dot v = true ->
  matchHere (Star dot :: keyTail) (v ++ k) = Some n ->
  n = String.length (v ++ k).
Proof.
  revert n. induction v as [| c v IH]; intros n Hv H.
  - cbn [append] in H. rewrite (keyTail_not_in_hex k k_hex) in H. discriminate H.
  - cbn [allChars] in Hv. apply andb_prop in Hv. destruct Hv as [Hc Hv].
    cbn [append] in H. rewrite matchHere_star, Hc in H.
    destruct (matchHere (Star dot :: keyTail) (v ++ k)) as [n' |] eqn:E.
    + cbn in H. injection H as <-. cbn [append String.length].
      f_equal. exact (IH n' Hv eq_refl).
    + cbn [option_map] in H. rewrite keyTail_first in H.
      destruct v as [| c2 [| c3 v]].
      * destruct k as [| h1 [| h2 k']]; try discriminate k_length.
        cbn in k_hex. apply andb_prop in k_hex. destruct k_hex as [_ Hk].
        apply andb_prop in Hk. destruct Hk as [H2 _].
        cbn [append matchHere] in H. rewrite (hex_not_y h2 H2) in H.
        destruct (ignoringCase "k" c), (ignoringCase "e" h1); discriminate H.
      * destruct k as [| h1 k']; try discriminate k_length.
        cbn in k_hex. apply andb_prop in k_hex. destruct k_hex as [H1 _].
        cbn [append matchHere] in H. rewrite (hex_not_y h1 H1) in H.
        destruct (ignoringCase "k" c), (ignoringCase "e" c2); discriminate H.
      * cbn [allChars] in Hv. apply andb_prop in Hv. destruct Hv as [_ Hv].
        apply andb_prop in Hv. destruct Hv as [_ Hv].
        cbn [append] in H. rewrite !matchHere_one in H.
        rewrite (final_star_reaches_key v Hv) in H.
        cbn [append String.length]. rewrite StringFacts.length_append, k_length.
        destruct (ignoringCase "k" c), (ignoringCase "e" c2),
                 (ignoringCase "y" c3); cbn in H; try discriminate H.
        injection H as <-. reflexivity.
Qed.

(** The first star stops at a [key] from which the key is reached. *)
Lemma first_star_reaches_end (u kw sep : string) :
  allChars dot u = true ->
  Js.toLowerCase kw = "key" ->
  allChars dot sep = true ->
  matchHere (Star dot :: keyTail) (u ++ kw ++ sep ++ k) =
  Some (String.length (u ++ kw ++ sep ++ k)).
Proof.
  intros Hu Hkw Hsep. induction u as [| c u IH].
  - cbn [append].
    assert (Hdot : allChars dot kw = true)
      by (rewrite <- allChars_dot_lower, Hkw; reflexivity).
    destruct kw as [| c1 [| c2 [| c3 [| c4 kw]]]]; try discriminate Hkw.
    cbn [allChars] in Hdot. apply andb_prop in Hdot. destruct Hdot as [H1 Hdot].
    rewrite matchHere_star. cbn [append]. rewrite H1.
    destruct (matchHere (Star dot :: keyTail) (String c2 (String c3 (sep ++ k))))
      as [n |] eqn:E.
    + cbn [option_map String.length]. f_equal. f_equal.
      apply (match_ends_with_key (String c2 (String c3 sep)) n); [| exact E].
      cbn [allChars]. rewrite Hsep. exact Hdot.
    + cbn [option_map].
      change (String c1 (String c2 (String c3 (sep ++ k))))
        with (String c1 (String c2 (String c3 "")) ++ (sep ++ k))%string.
      rewrite (literal_matches "key" _ _ _ Hkw), (final_star_reaches_key sep Hsep).
      cbn. rewrite StringFacts.length_append, k_length. reflexivity.
  - cbn in Hu. apply andb_prop in Hu. destruct Hu as [Hc Hu].
    cbn [append String.length].
    apply matchHere_star_more; [exact Hc | exact (IH Hu)].
Qed.

(** The private-key pattern matches a labelled key from the label to the
    end of the key. *)
Lemma privateKeyPattern_matches (label x kw sep : string) :
  Js.toLowerCase label = "private" ->
  allChars dot x = true ->
  Js.toLowerCase kw = "key" ->
  allChars dot sep = true ->
  matchHere privateKeyPattern (label ++ x ++ kw ++ sep ++ k) =
  Some (String.length (label ++ x ++ kw ++ sep ++ k)).
Proof.
  intros Hlabel Hx Hkw Hsep.
  rewrite privateKeyPattern_shape, (literal_matches "private" _ _ _ Hlabel).
  rewrite (first_star_reaches_end x kw sep Hx Hkw Hsep).
  cbn [option_map]. f_equal. rewrite (StringFacts.length_append label).
  f_equal. rewrite <- (StringFacts.length_toLowerCase label), Hlabel. reflexivity.
Qed.

End LabelledKey.

(** A labelled private key is redacted: a message made of the word
    [private], any text on the same line, the word [key], any text on the
    same line and 64 hexadecimal characters (the words in any letter case)
    is displayed as [PRIVATE_KEY_REDACTED]. *)
Theorem labelled_private_key_is_redacted (label x kw sep k : string) :
  Js.toLowerCase label = "private" ->
  allChars dot x = true ->
  Js.toLowerCase kw = "key" ->
  allChars dot sep = true ->
  allChars hexDigit k = true ->
  String.length k = 64%nat ->
  redactSensitive (label ++ x ++ kw ++ sep ++ k) = "PRIVATE_KEY_REDACTED".
Proof.
  intros Hlabel Hx Hkw Hsep Hk Hlen. unfold redactSensitive.
  rewrite (replaceAll_whole privateKeyPattern).
  - reflexivity.
  - reflexivity.
  - destruct label; [discriminate Hlabel | discriminate].
  - exact (privateKeyPattern_matches k Hk Hlen label x kw sep Hlabel Hx Hkw Hsep).
Qed.

Lemma labelled_private_key_is_redacted_witness :
  redactSensitive ("Private" ++ " " ++ "key" ++ ": 0x" ++ Samples.bareKey)
  = "PRIVATE_KEY_REDACTED".
Proof.
  apply (labelled_private_key_is_redacted
           "Private" " " "key" ": 0x" Samples.bareKey); reflexivity.
Defined.

(** *** Addresses *)

Lemma hex_lower_not_o (c : ascii) :
  hexDigit c = true -> negb (exactly "o" (Js.lowerChar c)) = true.
Proof. every_char c. Qed.

Lemma hex_lower_not_r (c : ascii) :
  hexDigit c = true -> negb (exactly "r" (Js.lowerChar c)) = true.
Proof. every_char c. Qed.

Lemma mnemonicPattern_shape :
  mnemonicPattern =
  (literal ignoringCase "mnemonic" ++
   Star dot :: repeat (One letterOrSpace) 20 ++ [Star letterOrSpace])%list.
Proof. reflexivity. Qed.

(** The replacer never keeps a match of the address pattern as it is:
    neither [contract] nor [address] can be spelled with [0x] and
    hexadecimal characters. *)
Lemma shorten_address (h : string) :
  allChars hexDigit h = true ->
  shorten ("0x" ++ h) =
  Js.sliceTo 6 ("0x" ++ h) ++ "..." ++ Js.sliceLast 4 ("0x" ++ h).
Proof.
  intros Hh. unfold shorten.
  rewrite (includes_absent (fun c => negb (exactly "o" c)) "contract"),
          (includes_absent (fun c => negb (exactly "r" c)) "address");
    try reflexivity.
  - rewrite allChars_toLowerCase. cbn [append allChars].
    rewrite (allChars_weaken hexDigit _ h hex_lower_not_r Hh). reflexivity.
  - rewrite allChars_toLowerCase. cbn [append allChars].
    rewrite (allChars_weaken hexDigit _ h hex_lower_not_o Hh). reflexivity.
Qed.

(** The address pattern matches only where the text reads [0x]. *)
Lemma address_needs_0x (b : string) :
  String.prefix "0x" b = false -> matchHere addressPattern b = None.
Proof.
  rewrite addressPattern_first. destruct b as [| c [| c2 b]]; intros H.
  - reflexivity.
  - rewrite matchHere_one. destruct (exactly "0" c); reflexivity.
  - rewrite !StringFacts.prefix_cons, StringFacts.prefix_nil in H.
    rewrite !matchHere_one. unfold exactly.
    destruct (Ascii.eqb "0" c); [| reflexivity].
    destruct (Ascii.eqb "x" c2); [discriminate H | reflexivity].
Qed.

Lemma address_matches (h post : string) :
  allChars hexDigit h = true -> String.length h = 40%nat ->
  matchHere addressPattern (String "0" (String "x" h) ++ post) =
  Some (String.length (String "0" (String "x" h))).
Proof.
  intros Hh Hlen. rewrite addressPattern_first. cbn [append].
  rewrite !matchHere_one.
  change (exactly "0" "0") with true. change (exactly "x" "x") with true.
  cbn iota. rewrite (run_matches_before hexDigit 40 h post Hh Hlen).
  cbn. rewrite Hlen. reflexivity.
Qed.

(** No match of the address pattern starts in a text without [0x], even
    when an address follows it. *)
Lemma address_not_started_in (pre rest : string) :
  Js.includes "0x" pre = false ->
  forall a1 a2, pre = (a1 ++ a2)%string -> a2 <> EmptyString ->
    matchHere addressPattern (a2 ++ String "0" rest) = None.
Proof.
  intros Hpre a1 a2 Ha Hne. subst pre.
  apply StringFacts.includes_suffix, StringFacts.includes_prefix in Hpre.
  apply address_needs_0x.
  destruct a2 as [| c [| c2 a2]]; [contradiction | |].
  - cbn [append]. rewrite !StringFacts.prefix_cons.
    change (Ascii.eqb "x" "0") with false. cbn. apply andb_false_r.
  - rewrite !StringFacts.prefix_cons, StringFacts.prefix_nil in Hpre.
    cbn [append]. rewrite !StringFacts.prefix_cons, StringFacts.prefix_nil.
    exact Hpre.
Qed.

(** The third replacement shortens an address to its first 6 and last 4
    characters and goes on behind it. *)
Lemma address_replaced (pre h post : string) :
  allChars hexDigit h = true -> String.length h = 40%nat ->
  Js.includes "0x" pre = false ->
  replaceAll addressPattern shorten (pre ++ "0x" ++ h ++ post) =
  pre ++ Js.sliceTo 6 ("0x" ++ h) ++ "..." ++ Js.sliceLast 4 ("0x" ++ h) ++
  replaceAll addressPattern shorten post.
Proof.
  intros Hh Hlen Hpre. unfold replaceAll.
  change ("0x" ++ h ++ post)%string with (String "0" (String "x" h) ++ post)%string.
  rewrite replaceFrom_copies.
  - rewrite (replaceFrom_match addressPattern shorten "0" (String "x" h) post
               (address_matches h post Hh Hlen)).
    change (String "0" (String "x" h)) with ("0x" ++ h)%string.
    rewrite (shorten_address h Hh), !StringFacts.append_assoc. reflexivity.
  - exact (address_not_started_in pre (String "x" h ++ post) Hpre).
Qed.

(** An address is shortened: in a message that mentions neither [private]
    nor [mnemonic], an address ([0x] and 40 hexadecimal characters) that
    follows a text without [0x] is displayed as its first 6 characters,
    three dots and its last 4 characters; the text before it is kept, and
    so is the text behind it when that holds no [0x]. *)
Theorem address_is_shortened (pre h post : string) :
  allChars hexDigit h = true ->
  String.length h = 40%nat ->
  Js.includes "0x" pre = false ->
  Js.includes "private" (Js.toLowerCase (pre ++ "0x" ++ h ++ post)) = false ->
  Js.includes "mnemonic" (Js.toLowerCase (pre ++ "0x" ++ h ++ post)) = false ->
  redactSensitive (pre ++ "0x" ++ h ++ post) =
  pre ++ Js.sliceTo 6 ("0x" ++ h) ++ "..." ++ Js.sliceLast 4 ("0x" ++ h) ++
  replaceAll addressPattern shorten post /\
  (Js.includes "0x" post = false ->
   redactSensitive (pre ++ "0x" ++ h ++ post) =
   pre ++ Js.sliceTo 6 ("0x" ++ h) ++ "..." ++ Js.sliceLast 4 ("0x" ++ h) ++ post).
Proof.
  intros Hh Hlen Hpre Hprivate Hmnemonic.
  assert (E : redactSensitive (pre ++ "0x" ++ h ++ post) =
              pre ++ Js.sliceTo 6 ("0x" ++ h) ++ "..." ++
              Js.sliceLast 4 ("0x" ++ h) ++
              replaceAll addressPattern shorten post).
  { unfold redactSensitive.
    rewrite privateKeyPattern_shape,
            (replaceAll_without_literal "private" _ _ _ Hprivate).
    rewrite mnemonicPattern_shape,
            (replaceAll_without_literal "mnemonic" _ _ _ Hmnemonic).
    exact (address_replaced pre h post Hh Hlen Hpre). }
  split; [exact E |].
  intros Hpost. rewrite E. do 4 f_equal.
  apply replaceAll_unchanged. intros a b Hab. subst post.
  apply address_needs_0x.
  exact (StringFacts.includes_prefix _ _ (StringFacts.includes_suffix _ a b Hpost)).
Qed.

Lemma address_is_shortened_witness :
  redactSensitive
    ("User address: " ++ "0x" ++ "742d35Cc6634C0532925a3b844Bc454e4438f44e" ++
     " (recipient)")
  = "User address: 0x742d...f44e (recipient)".
Proof.
  apply (proj2 (address_is_shortened
           "User address: " "742d35Cc6634C0532925a3b844Bc454e4438f44e"
           " (recipient)" eq_refl eq_refl eq_refl eq_refl eq_refl)).
  reflexivity.
Defined.

(** *** What the logger displays *)






Lemma hexadecimal_text_is_not_redacted_witness :
  redactSensitive Samples.bareKey = Samples.bareKey.
Proof.
  apply (hexadecimal_text_is_not_redacted Samples.bareKey). reflexivity.
Defined.

End LoggerFacts.

(* ------------------------------------------------------------------ *)
(** ** Properties of the validators and of the sanitiser                *)
(* ------------------------------------------------------------------ *)

Module CryptoFacts.
Import Regex Crypto RegexFacts.

Lemma fullMatch_length (r : Pattern) (s : string) :
  fullMatch r s = true -> matchHere r s = Some (String.length s).
Proof.
  unfold fullMatch. destruct (matchHere r s) as [n |]; [| discriminate].
  intros H. apply Nat.eqb_eq in H. rewrite H. reflexivity.
Qed.


(** The characters that such a pattern matches are in its classes. *)
Lemma run_match_allChars (class : ascii -> bool) (n : nat) (s : string) :
  matchHere (repeat (One class) n) s = Some (String.length s) ->
  allChars class s = true /\ String.length s = n.
Proof.
  revert s. induction n as [| n IH]; intros [| c s] H; try discriminate H.
  - split; reflexivity.
  - cbn [repeat] in H. rewrite matchHere_one in H.
    destruct (class c) eqn:Hc; [| discriminate H].
    destruct (matchHere (repeat (One class) n) s) as [m |] eqn:E;
      [| discriminate H].
    cbn in H. injection H as ->. destruct (IH s E) as [Hs Hlen].
    cbn. rewrite Hc, Hs, Hlen. split; reflexivity.
Qed.

(** What the two validators accept. *)
Lemma isValidAddress_iff (s : string) :
  isValidAddress s = true <->
  exists h, s = ("0x" ++ h)%string /\ String.length h = 40%nat /\
            allChars hexDigit h = true.
Proof.
  unfold isValidAddress. split.
  - intros H. apply fullMatch_length in H.
    destruct s as [| c0 [| c1 h]]; [discriminate H | |].
    { cbn [literal app] in H. rewrite matchHere_one in H.
      destruct (exactly "0" c0); discriminate H. }
    cbn [literal app] in H. rewrite !matchHere_one in H. unfold exactly in H.
    destruct (Ascii.eqb_spec "0" c0) as [E0 |]; [subst c0 | discriminate H].
    destruct (Ascii.eqb_spec "x" c1) as [E1 |]; [subst c1 | discriminate H].
    destruct (matchHere (repeat (One hexDigit) 40) h) as [m |] eqn:E;
      [| discriminate H].
    cbn in H. injection H as ->.
    destruct (run_match_allChars hexDigit 40 h E) as [Hh Hlen].
    exists h. repeat split; assumption.
  - intros [h [-> [Hlen Hh]]]. unfold fullMatch.
    cbn [literal app append]. rewrite !matchHere_one.
    change (exactly "0" "0") with true. change (exactly "x" "x") with true.
    cbn iota. rewrite (run_matches hexDigit 40 h Hh Hlen). cbn.
    rewrite Hlen. reflexivity.
Qed.

Lemma hex64_iff (s : string) :
  fullMatch (repeat (One hexDigit) 64) s = true <->
  String.length s = 64%nat /\ allChars hexDigit s = true.
Proof.
  split.
  - intros H. apply fullMatch_length in H.
    destruct (run_match_allChars hexDigit 64 s H). split; assumption.
  - intros [Hlen Hs]. unfold fullMatch.
    rewrite (run_matches hexDigit 64 s Hs Hlen), Hlen. reflexivity.
Qed.

Lemma prefixed_hex64_iff (s : string) :
  fullMatch (literal exactly "0x" ++ repeat (One hexDigit) 64)%list s = true <->
  exists k, s = ("0x" ++ k)%string /\ String.length k = 64%nat /\
            allChars hexDigit k = true.
Proof.
  split.
  - intros H. apply fullMatch_length in H.
    destruct s as [| c0 [| c1 k]]; [discriminate H | |].
    { cbn [literal app] in H. rewrite matchHere_one in H.
      destruct (exactly "0" c0); discriminate H. }
    cbn [literal app] in H. rewrite !matchHere_one in H. unfold exactly in H.
    destruct (Ascii.eqb_spec "0" c0) as [E0 |]; [subst c0 | discriminate H].
    destruct (Ascii.eqb_spec "x" c1) as [E1 |]; [subst c1 | discriminate H].
    destruct (matchHere (repeat (One hexDigit) 64) k) as [m |] eqn:E;
      [| discriminate H].
    cbn in H. injection H as ->.
    destruct (run_match_allChars hexDigit 64 k E) as [Hk Hlen].
    exists k. repeat split; assumption.
  - intros [k [-> [Hlen Hk]]]. unfold fullMatch.
    cbn [literal app append]. rewrite !matchHere_one.
    change (exactly "0" "0") with true. change (exactly "x" "x") with true.
    cbn iota. rewrite (run_matches hexDigit 64 k Hk Hlen). cbn.
    rewrite Hlen. reflexivity.
Qed.

Lemma isValidPrivateKey_length (s : string) :
  isValidPrivateKey s = true ->
  String.length s = 64%nat \/ String.length s = 66%nat.
Proof.
  unfold isValidPrivateKey. intros H. apply orb_prop in H.
  destruct H as [H | H].
  - apply prefixed_hex64_iff in H. destruct H as [k [-> [Hlen _]]].
    right. cbn. rewrite Hlen. reflexivity.
  - apply hex64_iff in H. left. exact (proj1 H).
Qed.

(** The validators accept disjoint sets of strings: an address has 42
    characters, a private key has 64 or 66, so no address is taken for a
    private key and no private key for an address. *)
Theorem address_and_private_key_are_disjoint (s : string) :
  (isValidAddress s = true ->
   String.length s = 42%nat /\ isValidPrivateKey s = false) /\
  (isValidPrivateKey s = true ->
   (String.length s = 64%nat \/ String.length s = 66%nat) /\
   isValidAddress s = false).
Proof.
  assert (Haddr : isValidAddress s = true -> String.length s = 42%nat).
  { intros H. apply isValidAddress_iff in H. destruct H as [h [-> [Hlen _]]].
    cbn. rewrite Hlen. reflexivity. }
  split.
  - intros H. split; [exact (Haddr H) |].
    destruct (isValidPrivateKey s) eqn:E; [| reflexivity].
    pose proof (Haddr H). destruct (isValidPrivateKey_length s E); lia.
  - intros H. split; [exact (isValidPrivateKey_length s H) |].
    destruct (isValidAddress s) eqn:E; [| reflexivity].
    pose proof (Haddr eq_refl). destruct (isValidPrivateKey_length s H); lia.
Qed.

Lemma address_and_private_key_are_disjoint_witness :
  (String.length "0x742d35Cc6634C0532925a3b844Bc454e4438f44e" = 42%nat /\
   isValidPrivateKey "0x742d35Cc6634C0532925a3b844Bc454e4438f44e" = false) /\
  ((String.length Samples.bareKey = 64%nat \/
    String.length Samples.bareKey = 66%nat) /\
   isValidAddress Samples.bareKey = false).
Proof.
  split.
  - apply (proj1 (address_and_private_key_are_disjoint
             "0x742d35Cc6634C0532925a3b844Bc454e4438f44e")).
    reflexivity.
  - apply (proj2 (address_and_private_key_are_disjoint Samples.bareKey)).
    reflexivity.
Defined.

(** *** The sanitiser *)

Lemma sanitizeForLog_cases (data : string) :
  (isValidPrivateKey data = true /\
   sanitizeForLog data = "PRIVATE_KEY_REDACTED") \/
  (isValidPrivateKey data = false /\
   sanitizeForLog data = "MNEMONIC_REDACTED") \/
  (isValidPrivateKey data = false /\ sanitizeForLog data = data).
Proof.
  unfold sanitizeForLog. destruct (isValidPrivateKey data).
  - left. split; reflexivity.
  - right.
    destruct (Js.includes " " data && (12 <=? List.length (split " " data))%nat);
      [left | right]; split; reflexivity.
Qed.

(** The sanitiser never lets a private key through: whatever the data, the
    text it returns is not a valid private key; and sanitising twice is
    sanitising once. *)
Theorem sanitizeForLog_returns_no_private_key (data : string) :
  isValidPrivateKey (sanitizeForLog data) = false /\
  sanitizeForLog (sanitizeForLog data) = sanitizeForLog data /\
  (isValidPrivateKey data = true -> sanitizeForLog data = "PRIVATE_KEY_REDACTED").
Proof.
  destruct (sanitizeForLog_cases data) as [[Hkey E] | [[Hkey E] | [Hkey E]]];
    rewrite !E.
  - repeat split; reflexivity.
  - repeat split; try reflexivity. rewrite Hkey. discriminate.
  - split; [exact Hkey | split; [reflexivity |]]. rewrite Hkey. discriminate.
Qed.

Lemma sanitizeForLog_returns_no_private_key_witness :
  sanitizeForLog ("0x" ++ Samples.bareKey) = "PRIVATE_KEY_REDACTED".
Proof.
  apply (proj2 (proj2 (sanitizeForLog_returns_no_private_key
                         ("0x" ++ Samples.bareKey)))).
  reflexivity.
Defined.

(** Splitting at a character gives one piece more than there are
    occurrences of the character. *)
Lemma split_length (sep : ascii) (s : string) :
  List.length (split sep s) = S (count sep s).
Proof.
  induction s as [| c s IH]; [reflexivity |].
  cbn [split count]. destruct (Ascii.eqb c sep).
  - cbn. rewrite IH. reflexivity.
  - destruct (split sep s) as [| piece pieces]; [discriminate IH |].
    cbn in IH |- *. exact IH.
Qed.

Lemma count_includes (c : ascii) (s : string) :
  (1 <= count c s)%nat -> Js.includes (String c "") s = true.
Proof.
  induction s as [| x s IH]; intros H; [cbn in H; lia |].
  rewrite StringFacts.includes_unfold, StringFacts.prefix_cons, StringFacts.prefix_nil.
  cbn [count] in H. rewrite Ascii.eqb_sym.
  destruct (Ascii.eqb x c); [reflexivity |].
  cbn [andb orb]. apply IH. cbn in H. exact H.
Qed.

Lemma hex_not_space (c : ascii) : hexDigit c = true -> Ascii.eqb c " " = false.
Proof. LoggerFacts.every_char c. Qed.

Lemma hex_without_space (s : string) :
  allChars hexDigit s = true -> count " " s = 0%nat.
Proof.
  induction s as [| c s IH]; [reflexivity |].
  cbn. intros H. apply andb_prop in H. destruct H as [Hc Hs].
  rewrite (hex_not_space c Hc), (IH Hs). reflexivity.
Qed.

Lemma private_key_without_space (s : string) :
  isValidPrivateKey s = true -> count " " s = 0%nat.
Proof.
  unfold isValidPrivateKey. intros H. apply orb_prop in H. destruct H as [H | H].
  - apply prefixed_hex64_iff in H. destruct H as [k [-> [_ Hk]]].
    cbn. exact (hex_without_space k Hk).
  - apply hex64_iff in H. exact (hex_without_space s (proj2 H)).
Qed.

(** The mnemonic rule counts spaces: a text with at least 11 spaces is
    returned as [MNEMONIC_REDACTED], whatever its words are, and a text
    with fewer spaces that is not a private key is returned as it is. *)
Theorem sanitizeForLog_counts_spaces (data : string) :
  ((11 <= count " " data)%nat -> sanitizeForLog data = "MNEMONIC_REDACTED") /\
  ((count " " data < 11)%nat -> isValidPrivateKey data = false ->
   sanitizeForLog data = data).
Proof.
  unfold sanitizeForLog. rewrite split_length. split.
  - intros H.
    destruct (isValidPrivateKey data) eqn:Hkey.
    + rewrite (private_key_without_space data Hkey) in H. lia.
    + rewrite (count_includes " " data) by lia.
      rewrite (proj2 (Nat.leb_le 12 (S (count " " data)))) by lia.
      reflexivity.
  - intros H Hkey. rewrite Hkey.
    rewrite (proj2 (Nat.leb_gt 12 (S (count " " data)))) by lia.
    rewrite andb_false_r. reflexivity.
Qed.

Lemma sanitizeForLog_counts_spaces_witness :
  sanitizeForLog Samples.sampleMnemonic = "MNEMONIC_REDACTED" /\
  sanitizeForLog "just some regular text" = "just some regular text".
Proof.
  split.
  - apply (proj1 (sanitizeForLog_counts_spaces Samples.sampleMnemonic)).
    cbn. lia.
  - apply (proj2 (sanitizeForLog_counts_spaces "just some regular text")).
    + cbn. lia.
    + reflexivity.
Defined.

End CryptoFacts.

(* ------------------------------------------------------------------ *)
(** ** Properties of the type inference                                 *)
(* ------------------------------------------------------------------ *)

Module CodecFacts.
Import Regex Codec RegexFacts CryptoFacts.












End CodecFacts.
